(** * The chat front end of the RAG chatbot (frontend/src/App.tsx)

    A shallow embedding of the React component [App]: its eight [useState]
    cells, the file-input ref, and the three handlers [handleSendMessage],
    [handleFileUpload] and [handleClearChat].  Handlers are written in the
    state monad over the component's world; an [await] splits a handler into
    the part that runs up to the request and the continuation that runs when
    the request settles. *)

From Stdlib Require Import String Ascii NArith ZArith Bool Lia Floats List.
From Stdlib Require DecimalN.
From ExtLib Require Import Structures.Monad Structures.MonadState Data.Monads.StateMonad.
Import ListNotations MonadNotation.
Local Open Scope monad_scope.
Local Open Scope list_scope.

(** ** JavaScript strings

    A JS string is a sequence of UTF-16 code units.  Only the operations the
    component uses are modelled. *)
Module JS.
Local Open Scope N_scope.

Definition jsstring := list N.

(** An ASCII literal of the source, as code units. *)
Definition lit (s : string) : jsstring := map N_of_ascii (list_ascii_of_string s).
Arguments lit s%_string.

Fixpoint str_eqb (a b : jsstring) : bool :=
  match a, b with
  | [], [] => true
  | x :: a', y :: b' => N.eqb x y && str_eqb a' b'
  | _, _ => false
  end.

(** Truthiness of a string: only the empty string is falsy. *)
Definition truthy (s : jsstring) : bool :=
  match s with [] => false | _ :: _ => true end.

(** [x || d] where [x] is a string that may be [undefined]. *)
Definition or_default (x : option jsstring) (d : jsstring) : jsstring :=
  match x with
  | Some s => if truthy s then s else d
  | None => d
  end.

(** ECMAScript WhiteSpace and LineTerminator code points (all in the BMP):
    TAB, LF, VT, FF, CR, SP, NBSP, the Zs category, LS, PS and ZWNBSP. *)
Definition whitespace_units : list N :=
  [9; 10; 11; 12; 13; 32; 160; 5760;
   8192; 8193; 8194; 8195; 8196; 8197; 8198; 8199; 8200; 8201; 8202;
   8232; 8233; 8239; 8287; 12288; 65279].

Definition is_whitespace (c : N) : bool := existsb (N.eqb c) whitespace_units.

Fixpoint trimStart (s : jsstring) : jsstring :=
  match s with
  | [] => []
  | c :: s' => if is_whitespace c then trimStart s' else s
  end.

Definition trimEnd (s : jsstring) : jsstring := rev (trimStart (rev s)).

(** String.prototype.trim *)
Definition trim (s : jsstring) : jsstring := trimEnd (trimStart s).

Fixpoint lastIndexOf_from (s : jsstring) (c : N) (i found : Z) : Z :=
  match s with
  | [] => found
  | x :: s' => lastIndexOf_from s' c (i + 1)%Z (if N.eqb x c then i else found)
  end.

(** String.prototype.lastIndexOf for a one-unit search string: the largest
    index holding [c], or -1. *)
Definition lastIndexOf (s : jsstring) (c : N) : Z := lastIndexOf_from s c 0%Z (-1)%Z.

(** String.prototype.substring with one argument: the start is clamped to
    [0, length]. *)
Definition substring (s : jsstring) (start : Z) : jsstring :=
  skipn (Z.to_nat (Z.min (Z.max start 0) (Z.of_nat (length s)))) s.

(** Lower-casing of one code unit.  ASCII capitals, and the two non-ASCII
    code points whose lower case contains an ASCII letter (KELVIN SIGN and
    LATIN CAPITAL LETTER I WITH DOT ABOVE), are mapped as Unicode does.  Every
    other code unit lower-cases to non-ASCII units and is kept as it is. *)
Definition lower_unit (c : N) : jsstring :=
  if (65 <=? c) && (c <=? 90) then [c + 32]
  else if c =? 8490 then [107]
  else if c =? 304 then [105; 775]
  else [c].

(** String.prototype.toLowerCase *)
Definition toLowerCase (s : jsstring) : jsstring := flat_map lower_unit s.

(** Array.prototype.includes on an array of strings. *)
Definition includes (l : list jsstring) (s : jsstring) : bool := existsb (str_eqb s) l.

(** Array.prototype.join *)
Fixpoint join (sep : jsstring) (l : list jsstring) : jsstring :=
  match l with
  | [] => []
  | [x] => x
  | x :: rest => x ++ sep ++ join sep rest
  end.

Fixpoint digits (u : Decimal.uint) : jsstring :=
  match u with
  | Decimal.Nil => []
  | Decimal.D0 u' => 48 :: digits u'
  | Decimal.D1 u' => 49 :: digits u'
  | Decimal.D2 u' => 50 :: digits u'
  | Decimal.D3 u' => 51 :: digits u'
  | Decimal.D4 u' => 52 :: digits u'
  | Decimal.D5 u' => 53 :: digits u'
  | Decimal.D6 u' => 54 :: digits u'
  | Decimal.D7 u' => 55 :: digits u'
  | Decimal.D8 u' => 56 :: digits u'
  | Decimal.D9 u' => 57 :: digits u'
  end.

(** A non-negative integer inside a template literal.  Exact for the safe
    integers (below 2^53), which a JS number holds exactly and prints with
    all their digits: clock readings, and counts within that range. *)
Definition numberToString (n : N) : jsstring := digits (N.to_uint n).

End JS.
Import JS.

(** ** Data model (the interfaces of App.tsx) *)

Inductive Role := user | assistant.

Module SourceDocument.
Record t := mk {
  content : jsstring;
  filename : jsstring;
  page : option N;
  relevance_score : float
}.
End SourceDocument.

Module Message.
Record t := mk {
  id : jsstring;
  role : Role;
  content : jsstring;
  timestamp : jsstring;
  sources : option (list SourceDocument.t)
}.
End Message.

Module UploadedFile.
Record t := mk {
  file_id : jsstring;
  filename : jsstring;
  chunks_created : N;
  uploaded_at : jsstring
}.
End UploadedFile.

Inductive NotificationType := success | error.

Record Notification := { type : NotificationType; message : jsstring }.

(** The browser's File object: its name and its bytes. *)
Record File := { name : jsstring; bytes : list N }.

(** What the two clock reads of a handler return: [Date.now()] and
    [new Date().toISOString()]. *)
Record Clock := { now : N; iso : jsstring }.

(** ** The backend, as seen through axios *)

Record ChatRequest := {
  req_message : jsstring;
  session_id : jsstring;
  use_rag : bool
}.

(** [response.data] of POST /api/chat; [sources] may be missing. *)
Record ChatResponse := {
  response : jsstring;
  resp_timestamp : jsstring;
  resp_sources : option (list SourceDocument.t)
}.

(** [response.data] of POST /api/upload. *)
Record UploadResponse := {
  resp_file_id : jsstring;
  resp_filename : jsstring;
  resp_chunks_created : N
}.

(** A rejected request; [detail] is [error.response?.data?.detail]. *)
Record AxiosError := { detail : option jsstring }.

Inductive Request :=
| ChatPost (body : ChatRequest)
| UploadPost (file : File).

Inductive ResponseData :=
| ChatData (data : ChatResponse)
| UploadData (data : UploadResponse).

Inductive Outcome :=
| Fulfilled (data : ResponseData)
| Rejected (err : AxiosError).

(** ** Component state

    [State] holds the eight [useState] cells of [App].  [World] adds what
    lives outside React state: the value of the file input behind
    [fileInputRef] ([None] while the ref is not attached), the requests that
    were posted and have not settled, and the number of pending
    auto-dismiss timers set by [showNotification]. *)

Record State := {
  messages : list Message.t;
  input : jsstring;
  loading : bool;
  sessionId : jsstring;
  uploadedFiles : list UploadedFile.t;
  uploading : bool;
  notification : option Notification;
  useRag : bool
}.

Record World := {
  ui : State;
  fileInputRef : option jsstring;
  inflight : list Request;
  timers : nat
}.

Definition with_messages (v : list Message.t) (st : State) : State :=
  {| messages := v; input := input st; loading := loading st;
     sessionId := sessionId st; uploadedFiles := uploadedFiles st;
     uploading := uploading st; notification := notification st;
     useRag := useRag st |}.

Definition with_input (v : jsstring) (st : State) : State :=
  {| messages := messages st; input := v; loading := loading st;
     sessionId := sessionId st; uploadedFiles := uploadedFiles st;
     uploading := uploading st; notification := notification st;
     useRag := useRag st |}.

Definition with_loading (v : bool) (st : State) : State :=
  {| messages := messages st; input := input st; loading := v;
     sessionId := sessionId st; uploadedFiles := uploadedFiles st;
     uploading := uploading st; notification := notification st;
     useRag := useRag st |}.

Definition with_uploadedFiles (v : list UploadedFile.t) (st : State) : State :=
  {| messages := messages st; input := input st; loading := loading st;
     sessionId := sessionId st; uploadedFiles := v;
     uploading := uploading st; notification := notification st;
     useRag := useRag st |}.

Definition with_uploading (v : bool) (st : State) : State :=
  {| messages := messages st; input := input st; loading := loading st;
     sessionId := sessionId st; uploadedFiles := uploadedFiles st;
     uploading := v; notification := notification st;
     useRag := useRag st |}.

Definition with_notification (v : option Notification) (st : State) : State :=
  {| messages := messages st; input := input st; loading := loading st;
     sessionId := sessionId st; uploadedFiles := uploadedFiles st;
     uploading := uploading st; notification := v;
     useRag := useRag st |}.

Definition with_useRag (v : bool) (st : State) : State :=
  {| messages := messages st; input := input st; loading := loading st;
     sessionId := sessionId st; uploadedFiles := uploadedFiles st;
     uploading := uploading st; notification := notification st;
     useRag := v |}.

Definition with_ui (v : State) (w : World) : World :=
  {| ui := v; fileInputRef := fileInputRef w; inflight := inflight w;
     timers := timers w |}.

Definition with_fileInputRef (v : option jsstring) (w : World) : World :=
  {| ui := ui w; fileInputRef := v; inflight := inflight w;
     timers := timers w |}.

Definition with_inflight (v : list Request) (w : World) : World :=
  {| ui := ui w; fileInputRef := fileInputRef w; inflight := v;
     timers := timers w |}.

Definition with_timers (v : nat) (w : World) : World :=
  {| ui := ui w; fileInputRef := fileInputRef w; inflight := inflight w;
     timers := v |}.

(** ** The handler monad and the primitive effects *)

Definition Handler := state World.

Definition update (f : World -> World) : Handler unit :=
  modify f ;; ret tt.

Definition setState (f : State -> State) : Handler unit :=
  update (fun w => with_ui (f (ui w)) w).

Definition setMessages (f : list Message.t -> list Message.t) : Handler unit :=
  setState (fun st => with_messages (f (messages st)) st).

Definition setInput (v : jsstring) : Handler unit := setState (with_input v).

Definition setLoading (v : bool) : Handler unit := setState (with_loading v).

Definition setUploadedFiles
  (f : list UploadedFile.t -> list UploadedFile.t) : Handler unit :=
  setState (fun st => with_uploadedFiles (f (uploadedFiles st)) st).

Definition setUploading (v : bool) : Handler unit := setState (with_uploading v).

Definition setNotification (v : option Notification) : Handler unit :=
  setState (with_notification v).

Definition setUseRag (v : bool) : Handler unit := setState (with_useRag v).

(** [setTimeout(() => setNotification(null), 5000)]: one more pending timer. *)
Definition setTimeout_dismiss : Handler unit :=
  update (fun w => with_timers (S (timers w)) w).

(** [axios.post(...)]: the request joins the ones in flight. *)
Definition axios_post (r : Request) : Handler unit :=
  update (fun w => with_inflight (inflight w ++ [r]) w).

(** [if (fileInputRef.current) fileInputRef.current.value = ''] *)
Definition resetFileInput : Handler unit :=
  update (fun w =>
    match fileInputRef w with
    | Some _ => with_fileInputRef (Some []) w
    | None => w
    end).

Definition showNotification (ty : NotificationType) (msg : jsstring) : Handler unit :=
  setNotification (Some {| type := ty; message := msg |}) ;;
  setTimeout_dismiss.

(** ** handleSendMessage *)

Definition error_content : jsstring :=
  10060%N (* U+274C *) :: lit " Sorry, I encountered an error. Please try again.".

(** The three message objects the handler builds. *)
Definition userMessage (st : State) (clk : Clock) : Message.t :=
  {| Message.id := lit "msg_" ++ numberToString (now clk);
     Message.role := user;
     Message.content := input st;
     Message.timestamp := iso clk;
     Message.sources := None |}.

Definition assistantMessage (data : ChatResponse) (clk : Clock) : Message.t :=
  {| Message.id := lit "msg_" ++ numberToString (now clk) ++ lit "_assistant";
     Message.role := assistant;
     Message.content := response data;
     Message.timestamp := resp_timestamp data;
     Message.sources :=
       Some (match resp_sources data with Some l => l | None => [] end) |}.

Definition errorMessage (clk : Clock) : Message.t :=
  {| Message.id := lit "msg_" ++ numberToString (now clk) ++ lit "_error";
     Message.role := assistant;
     Message.content := error_content;
     Message.timestamp := iso clk;
     Message.sources := None |}.

(** The body of the POST to /api/chat. *)
Definition chatRequest (st : State) : ChatRequest :=
  {| req_message := input st;
     session_id := sessionId st;
     use_rag := useRag st |}.

(** Up to the [await]. *)
Definition handleSendMessage (clk : Clock) : Handler unit :=
  w <- get ;;
  let st := ui w in
  if negb (truthy (trim (input st))) || loading st then ret tt
  else
    setMessages (fun prev => prev ++ [userMessage st clk]) ;;
    setInput [] ;;
    setLoading true ;;
    axios_post (ChatPost (chatRequest st)).

Definition handleSendMessage_finally : Handler unit := setLoading false.

(** The rest of the [try] block, once the request is fulfilled. *)
Definition handleSendMessage_fulfilled (data : ChatResponse) (clk : Clock)
  : Handler unit :=
  setMessages (fun prev => prev ++ [assistantMessage data clk]) ;;
  handleSendMessage_finally.

(** The [catch] block, when the request is rejected. *)
Definition handleSendMessage_rejected (err : AxiosError) (clk : Clock)
  : Handler unit :=
  showNotification error (or_default (detail err) (lit "Failed to send message")) ;;
  setMessages (fun prev => prev ++ [errorMessage clk]) ;;
  handleSendMessage_finally.

(** ** handleFileUpload *)

Definition allowedTypes : list jsstring :=
  [lit ".pdf"; lit ".txt"; lit ".docx"; lit ".pptx"; lit ".xlsx"].

Definition dot : N := 46%N.

(** [file.name.substring(file.name.lastIndexOf('.')).toLowerCase()] *)
Definition fileExt (file : File) : jsstring :=
  toLowerCase (substring (name file) (lastIndexOf (name file) dot)).

Definition unsupportedNotice : jsstring :=
  lit "Unsupported file type. Allowed: " ++ join (lit ", ") allowedTypes.

(** Up to the [await]; the argument is [event.target.files?.[0]]. *)
Definition handleFileUpload (file0 : option File) : Handler unit :=
  match file0 with
  | None => ret tt
  | Some file =>
      if negb (includes allowedTypes (fileExt file)) then
        showNotification error unsupportedNotice
      else
        setUploading true ;;
        axios_post (UploadPost file)
  end.

Definition handleFileUpload_finally : Handler unit :=
  setUploading false ;;
  resetFileInput.

Definition uploadedFile (data : UploadResponse) (clk : Clock) : UploadedFile.t :=
  {| UploadedFile.file_id := resp_file_id data;
     UploadedFile.filename := resp_filename data;
     UploadedFile.chunks_created := resp_chunks_created data;
     UploadedFile.uploaded_at := iso clk |}.

Definition uploadedNotice (file : File) (data : UploadResponse) : jsstring :=
  name file ++ lit " uploaded successfully! "
    ++ numberToString (resp_chunks_created data) ++ lit " chunks created.".

Definition handleFileUpload_fulfilled (file : File) (data : UploadResponse)
  (clk : Clock) : Handler unit :=
  setUploadedFiles (fun prev => prev ++ [uploadedFile data clk]) ;;
  showNotification success (uploadedNotice file data) ;;
  handleFileUpload_finally.

Definition handleFileUpload_rejected (err : AxiosError) : Handler unit :=
  showNotification error (or_default (detail err) (lit "Upload failed")) ;;
  handleFileUpload_finally.

(** ** handleClearChat; the argument is what [window.confirm] returned. *)

Definition handleClearChat (confirmed : bool) : Handler unit :=
  if confirmed then
    setMessages (fun _ => []) ;;
    showNotification success (lit "Chat cleared")
  else ret tt.

(** ** handleKeyPress

    The part of a keyboard event the handler reads. *)
Record KeyboardEvent := { key : jsstring; shiftKey : bool }.

(** The result tells whether [e.preventDefault()] was called. *)
Definition handleKeyPress (e : KeyboardEvent) (clk : Clock) : Handler bool :=
  if str_eqb (key e) (lit "Enter") && negb (shiftKey e) then
    handleSendMessage clk ;;
    ret true
  else ret false.

(** ** Rendering decisions *)

(** [{loading && <div className="message assistant">...typing...</div>}] *)
Definition renders_typing_indicator (st : State) : bool := loading st.

(** [messages.length === 0 ? <div className="empty-chat">... : messages.map(...)] *)
Definition renders_empty_chat (st : State) : bool :=
  match messages st with [] => true | _ :: _ => false end.


(** [message.sources && message.sources.length > 0] *)
Definition renders_sources (m : Message.t) : bool :=
  match Message.sources m with
  | Some l => Nat.ltb 0 (length l)
  | None => false
  end.

(** [disabled={loading || !input.trim()}] on the send button. *)
Definition send_disabled (st : State) : bool :=
  loading st || negb (truthy (trim (input st))).

(** ** The event loop

    What can happen to a mounted component: the user acts, a timer fires, or
    the [n]-th request in flight settles and the continuation of the handler
    that posted it runs.  A settlement whose data does not have the shape of
    the request's endpoint is not an event of the system and is ignored.
    Events are accepted in every state: the [disabled] attributes of the
    textarea and of the file input only remove behaviours.  Each handler
    runs on the state the previous event left: React is taken to have
    re-rendered between two events, so that the [input], [loading] and
    [useRag] captured by the handler's closure are the current ones. *)

Inductive Event :=
| ChangeInput (text : jsstring)
| PressSend (clk : Clock)
| ChooseFile (file0 : option File)
| ClickClear (confirmed : bool)
| ToggleRag
| TimerFired
| Settled (n : nat) (out : Outcome) (clk : Clock).

Fixpoint remove_nth {A : Type} (n : nat) (l : list A) : list A :=
  match l, n with
  | [], _ => []
  | _ :: l', O => l'
  | x :: l', S k => x :: remove_nth k l'
  end.

Definition take_inflight (n : nat) : Handler unit :=
  update (fun w => with_inflight (remove_nth n (inflight w)) w).

Definition settle (n : nat) (out : Outcome) (clk : Clock) : Handler unit :=
  w <- get ;;
  match nth_error (inflight w) n, out with
  | Some (ChatPost _), Fulfilled (ChatData data) =>
      take_inflight n ;; handleSendMessage_fulfilled data clk
  | Some (ChatPost _), Rejected err =>
      take_inflight n ;; handleSendMessage_rejected err clk
  | Some (UploadPost file), Fulfilled (UploadData data) =>
      take_inflight n ;; handleFileUpload_fulfilled file data clk
  | Some (UploadPost _), Rejected err =>
      take_inflight n ;; handleFileUpload_rejected err
  | _, _ => ret tt
  end.

(** The browser's side of choosing a file: the value of the file input
    becomes the fake path of the chosen file (the empty string when the
    selection is emptied) before [onChange] runs. *)
Definition browser_select (file0 : option File) : Handler unit :=
  update (fun w =>
    match fileInputRef w with
    | Some _ =>
        with_fileInputRef
          (Some (match file0 with
                 | Some file => lit "C:\fakepath\" ++ name file
                 | None => []
                 end)) w
    | None => w
    end).

Definition timerFired : Handler unit :=
  w <- get ;;
  match timers w with
  | O => ret tt
  | S k => update (with_timers k) ;; setNotification None
  end.

Definition dispatch (e : Event) : Handler unit :=
  match e with
  | ChangeInput text => setInput text
  | PressSend clk => handleSendMessage clk
  | ChooseFile file0 => browser_select file0 ;; handleFileUpload file0
  | ClickClear confirmed => handleClearChat confirmed
  | ToggleRag => w <- get ;; setUseRag (negb (useRag (ui w)))
  | TimerFired => timerFired
  | Settled n out clk => settle n out clk
  end.

Definition step (w : World) (e : Event) : World := execState (dispatch e) w.

Definition run (w : World) (es : list Event) : World := fold_left step es w.

(** The first render; [clk] is the clock read by the [sessionId] initialiser. *)
Definition initialState (clk : Clock) : State :=
  {| messages := [];
     input := [];
     loading := false;
     sessionId := lit "session_" ++ numberToString (now clk);
     uploadedFiles := [];
     uploading := false;
     notification := None;
     useRag := true |}.

Definition mount (clk : Clock) : World :=
  {| ui := initialState clk; fileInputRef := Some []; inflight := []; timers := 0 |}.

Inductive reachable : World -> Prop :=
| reach_mount (clk : Clock) : reachable (mount clk)
| reach_step (w : World) (e : Event) : reachable w -> reachable (step w e).


(** ** Vocabulary of the specification *)

(** The final extension of a file name: the part from its last dot to its
    end; a name without a dot has none. *)
Fixpoint final_extension (nm : jsstring) : option jsstring :=
  match nm with
  | [] => None
  | c :: rest =>
      match final_extension rest with
      | Some e => Some e
      | None => if N.eqb c dot then Some nm else None
      end
  end.

(** The five supported source formats (PDF, plain text, Word, slide deck,
    spreadsheet), as file extensions. *)
Definition supported_extensions : list jsstring :=
  [[46; 112; 100; 102];        (* .pdf *)
   [46; 116; 120; 116];        (* .txt *)
   [46; 100; 111; 99; 120];    (* .docx *)
   [46; 112; 112; 116; 120];   (* .pptx *)
   [46; 120; 108; 115; 120]    (* .xlsx *)]%N.

(** A text with its capitals A-Z turned into a-z.  The supported extensions
    are made of ASCII letters, and no other character lower-cases to one of
    their letters, so this is all of lower-casing that a comparison with
    them can see. *)
Definition lowercased (s : jsstring) : jsstring :=
  map (fun c : N => if (65 <=? c)%N && (c <=? 90)%N then (c + 32)%N else c) s.

(** The name's final extension, lower-cased, is one of the supported ones. *)
Definition supported_format (nm : jsstring) : bool :=
  match final_extension nm with
  | Some e => existsb (str_eqb (lowercased e)) supported_extensions
  | None => false
  end.

(** The number a text denotes when read as a decimal numeral: every
    character a digit 0-9, at least one of them. *)
Fixpoint decimal_value_from (acc : N) (s : jsstring) : option N :=
  match s with
  | [] => Some acc
  | c :: s' =>
      if (48 <=? c)%N && (c <=? 57)%N
      then decimal_value_from (10 * acc + (c - 48))%N s'
      else None
  end.

Definition decimal_value (s : jsstring) : option N :=
  match s with
  | [] => None
  | _ :: _ => decimal_value_from 0%N s
  end.

(** The text is empty or consists only of whitespace. *)
Definition blank (s : jsstring) : bool := forallb is_whitespace s.

Definition is_user_turn_with (text : jsstring) (m : Message.t) : bool :=
  match Message.role m with
  | user => str_eqb (Message.content m) text
  | assistant => false
  end.

(** A turn respects the transcript invariant when a user turn carries no
    citation list. *)
Definition turn_ok (m : Message.t) : Prop :=
  (Message.role m = user \/ Message.role m = assistant) /\
  (Message.sources m <> None -> Message.role m = assistant).

Definition role_eqb (a b : Role) : bool :=
  match a, b with
  | user, user | assistant, assistant => true
  | _, _ => false
  end.

(** No two neighbouring turns have the same role. *)
Fixpoint alternating (rs : list Role) : bool :=
  match rs with
  | [] => true
  | a :: tl =>
      match tl with
      | [] => true
      | b :: _ => negb (role_eqb a b) && alternating tl
      end
  end.

(** The role of the last turn, if there is one. *)
Fixpoint last_role (rs : list Role) : option Role :=
  match rs with
  | [] => None
  | [a] => Some a
  | _ :: tl => last_role tl
  end.

Definition roles (w : World) : list Role := map Message.role (messages (ui w)).

Definition is_chat (r : Request) : bool :=
  match r with ChatPost _ => true | UploadPost _ => false end.

(** The number of chat requests among the requests in flight. *)
Definition chat_count (l : list Request) : nat := length (filter is_chat l).

(** The request, when it is a chat request, was posted under session [sid]. *)
Definition posted_under (sid : jsstring) (r : Request) : Prop :=
  match r with
  | ChatPost body => session_id body = sid
  | UploadPost _ => True
  end.

(** ** Sample data used by the examples *)

Definition clk0 : Clock :=
  {| now := 1700000000000%N; iso := lit "2023-11-14T22:13:20.000Z" |}.

Definition clk1 : Clock :=
  {| now := 1700000000850%N; iso := lit "2023-11-14T22:13:20.850Z" |}.

Definition passage : SourceDocument.t :=
  {| SourceDocument.content := lit "invoice total: $42";
     SourceDocument.filename := lit "invoice.pdf";
     SourceDocument.page := Some 1%N;
     SourceDocument.relevance_score := 0.5%float |}.

Definition reply_plain : ChatResponse :=
  {| response := lit "Hello!"; resp_timestamp := lit "2023-11-14T22:13:20.800Z";
     resp_sources := None |}.

Definition reply_cited : ChatResponse :=
  {| response := lit "The total is $42.";
     resp_timestamp := lit "2023-11-14T22:13:21.900Z";
     resp_sources := Some [passage] |}.

Definition report_pdf : File := {| name := lit "Report.PDF"; bytes := [37; 80; 68; 70]%N |}.

Definition setup_exe : File := {| name := lit "setup.exe"; bytes := [77; 90]%N |}.

Definition ingest_reply : UploadResponse :=
  {| resp_file_id := lit "doc_1"; resp_filename := lit "Report.PDF";
     resp_chunks_created := 3%N |}.

(** The text "hello" typed into a freshly mounted component. *)
Definition typed_hello : World := step (mount clk0) (ChangeInput (lit "hello")).

(** A session in which "hello" was sent and its request is still in flight. *)
Definition waiting_for_reply : World :=
  run (mount clk0) [ChangeInput (lit "hello"); PressSend clk0].

(** A session in which [report_pdf] was chosen and its upload is in flight. *)
Definition waiting_for_upload : World :=
  run (mount clk0) [ChooseFile (Some report_pdf)].

(** * Properties *)

Arguments lit : simpl never.
Arguments trim : simpl never.
Arguments numberToString : simpl never.
Arguments fileExt : simpl never.
Arguments allowedTypes : simpl never.
Arguments userMessage : simpl never.
Arguments assistantMessage : simpl never.
Arguments errorMessage : simpl never.
Arguments chatRequest : simpl never.
Arguments uploadedFile : simpl never.
Arguments uploadedNotice : simpl never.
Arguments unsupportedNotice : simpl never.

(** ** Strings *)

Section StringFacts.

Lemma str_eqb_eq (a b : jsstring) : str_eqb a b = true <-> a = b.
Proof.
  revert b. induction a as [|x a IH]; intros [|y b]; simpl; split;
    try congruence; try reflexivity.
  - intros H. apply andb_true_iff in H as [Hx Hab].
    apply N.eqb_eq in Hx. apply IH in Hab. congruence.
  - intros H. injection H as -> ->. rewrite N.eqb_refl.
    simpl. now apply IH.
Qed.

Lemma trimStart_nil_blank (s : jsstring) : trimStart s = [] <-> blank s = true.
Proof.
  induction s as [|c s IH]; simpl.
  - tauto.
  - destruct (is_whitespace c); simpl.
    + exact IH.
    + split; discriminate.
Qed.

Lemma trimStart_blank_tail (s : jsstring) :
  blank (trimStart s) = true -> trimStart s = [].
Proof.
  induction s as [|c s IH]; simpl; [reflexivity|].
  destruct (is_whitespace c) eqn:E; [exact IH|].
  simpl. rewrite E. discriminate.
Qed.

Lemma blank_rev (s : jsstring) : blank (rev s) = blank s.
Proof.
  unfold blank. induction s as [|c s IH]; simpl; [reflexivity|].
  rewrite forallb_app, IH. simpl. rewrite andb_true_r. apply andb_comm.
Qed.

(** [trim] leaves nothing exactly when the text is blank. *)
Lemma trim_nil_blank (s : jsstring) : trim s = [] <-> blank s = true.
Proof.
  unfold trim, trimEnd. split.
  - intros H. apply (f_equal (@rev N)) in H. rewrite rev_involutive in H.
    simpl in H. apply trimStart_nil_blank in H. rewrite blank_rev in H.
    apply trimStart_blank_tail in H. now apply trimStart_nil_blank.
  - intros H. apply trimStart_nil_blank in H. rewrite H. reflexivity.
Qed.

Lemma truthy_trim_blank (s : jsstring) : truthy (trim s) = negb (blank s).
Proof.
  destruct (blank s) eqn:E.
  - apply trim_nil_blank in E. rewrite E. reflexivity.
  - destruct (trim s) eqn:T; [|reflexivity].
    apply trim_nil_blank in T. congruence.
Qed.

(** [x || d] picks [x] exactly when it is a non-empty string. *)
Lemma or_default_cases (x : option jsstring) (d : jsstring) :
  or_default x d =
  match x with
  | Some (c :: s) => c :: s
  | _ => d
  end.
Proof. destruct x as [[|c s]|]; reflexivity. Qed.

(** The index found by the scan, in terms of the final extension. *)
Lemma lastIndexOf_from_spec (s : jsstring) (i found : Z) :
  lastIndexOf_from s dot i found =
  match final_extension s with
  | Some e => (i + (Z.of_nat (length s) - Z.of_nat (length e)))%Z
  | None => found
  end.
Proof.
  revert i found. induction s as [|x s IH]; intros i found; [reflexivity|].
  cbn [lastIndexOf_from final_extension]. rewrite IH.
  destruct (final_extension s) as [e|].
  - cbn [length]. lia.
  - destruct (N.eqb x dot); [lia | reflexivity].
Qed.

Lemma final_extension_suffix (s e : jsstring) :
  final_extension s = Some e -> exists p, s = p ++ e.
Proof.
  revert e. induction s as [|x s IH]; intros e; simpl; [discriminate|].
  destruct (final_extension s) as [e'|].
  - intros [= <-]. destruct (IH e' eq_refl) as [p ->]. now exists (x :: p).
  - destruct (N.eqb x dot); [|discriminate].
    intros [= <-]. now exists [].
Qed.

Lemma final_extension_none (s : jsstring) :
  final_extension s = None -> ~ In dot s.
Proof.
  induction s as [|x s IH]; simpl; [tauto|].
  destruct (final_extension s); [discriminate|].
  destruct (N.eqb x dot) eqn:E; [discriminate|].
  intros _ [H|H]; [|now apply IH].
  subst x. now rewrite N.eqb_refl in E.
Qed.

(** What [substring(lastIndexOf('.'))] cuts out of a name. *)
Lemma substring_lastIndexOf (s : jsstring) :
  substring s (lastIndexOf s dot) =
  match final_extension s with Some e => e | None => s end.
Proof.
  unfold substring, lastIndexOf. rewrite lastIndexOf_from_spec.
  destruct (final_extension s) as [e|] eqn:E.
  - destruct (final_extension_suffix _ _ E) as [p ->].
    rewrite length_app.
    replace (Z.to_nat _) with (length p) by lia.
    rewrite skipn_app, skipn_all, Nat.sub_diag. reflexivity.
  - replace (Z.to_nat _) with 0%nat by lia. reflexivity.
Qed.

Lemma lower_unit_dot (c : N) : In dot (lower_unit c) -> c = dot.
Proof.
  unfold lower_unit, dot.
  destruct ((65 <=? c)%N && (c <=? 90)%N) eqn:R.
  - apply andb_true_iff in R as [H1 _]. apply N.leb_le in H1.
    simpl. intros [H|[]]. lia.
  - destruct (N.eqb_spec c 8490); [simpl; intros [H'|[]]; discriminate|].
    destruct (N.eqb_spec c 304); simpl.
    + intros [H'|[H'|[]]]; discriminate.
    + intros [H'|[]]; congruence.
Qed.

Lemma toLowerCase_dot (s : jsstring) : In dot (toLowerCase s) -> In dot s.
Proof.
  unfold toLowerCase. intros H. apply in_flat_map in H as (c & Hc & Hd).
  apply lower_unit_dot in Hd. now subst c.
Qed.

Lemma allowedTypes_dot (s : jsstring) : includes allowedTypes s = true -> In dot s.
Proof.
  unfold includes. intros H. apply existsb_exists in H as (a & Ha & Heq).
  apply str_eqb_eq in Heq. subst a.
  unfold allowedTypes in Ha. simpl in Ha.
  repeat (destruct Ha as [<-|Ha]; [left; reflexivity|]). destruct Ha.
Qed.

(** The test of the handler, in terms of the final extension. *)
Lemma fileExt_final_extension (file : File) :
  includes allowedTypes (fileExt file) =
  match final_extension (name file) with
  | Some e => includes allowedTypes (toLowerCase e)
  | None => false
  end.
Proof.
  unfold fileExt. rewrite substring_lastIndexOf.
  destruct (final_extension (name file)) eqn:E; [reflexivity|].
  destruct (includes allowedTypes (toLowerCase (name file))) eqn:I; [|reflexivity].
  apply allowedTypes_dot, toLowerCase_dot in I.
  now apply final_extension_none in E.
Qed.

(** [toLowerCase] against the lower-casing of the specification: they agree
    on every text without KELVIN SIGN and dotted capital I, and a text with
    one of these is on neither side a supported extension. *)
Lemma toLowerCase_lowercased (s : jsstring) :
  ~ In 8490%N s -> ~ In 304%N s -> toLowerCase s = lowercased s.
Proof.
  unfold toLowerCase, lowercased. induction s as [|c s IH]; [reflexivity|].
  intros K I. cbn [flat_map map].
  rewrite IH by (intros H; first [apply K; now right | apply I; now right]).
  unfold lower_unit. destruct ((65 <=? c)%N && (c <=? 90)%N); [reflexivity|].
  destruct (N.eqb_spec c 8490) as [->|_]; [contradiction K; now left|].
  destruct (N.eqb_spec c 304) as [->|_]; [contradiction I; now left|].
  reflexivity.
Qed.

Lemma toLowerCase_kelvin (s : jsstring) :
  In 8490%N s -> In 107%N (toLowerCase s).
Proof.
  intros H. apply in_flat_map. exists 8490%N. split; [exact H | now left].
Qed.

Lemma toLowerCase_dotted_I (s : jsstring) :
  In 304%N s -> In 105%N (toLowerCase s).
Proof.
  intros H. apply in_flat_map. exists 304%N. split; [exact H | now left].
Qed.

Lemma lowercased_keeps (c : N) (s : jsstring) :
  (90 < c)%N -> In c s -> In c (lowercased s).
Proof.
  intros B H. unfold lowercased.
  apply in_map_iff. exists c. split; [|exact H].
  replace (c <=? 90)%N with false by (symmetry; apply N.leb_gt; exact B).
  now rewrite andb_false_r.
Qed.

Lemma allowedTypes_letters (s : jsstring) (c : N) :
  includes allowedTypes s = true ->
  c = 107%N \/ c = 105%N -> ~ In c s.
Proof.
  unfold includes. intros H C. apply existsb_exists in H as (a & Ha & Heq).
  apply str_eqb_eq in Heq. subst a. unfold allowedTypes in Ha. cbn [In] in Ha.
  intros I.
  repeat (destruct Ha as [<-|Ha];
          [vm_compute in I; destruct C as [-> | ->];
           repeat (destruct I as [I|I]; [discriminate I|]); exact I|]).
  exact Ha.
Qed.

Lemma supported_extensions_letters (s : jsstring) (c : N) :
  existsb (str_eqb s) supported_extensions = true ->
  c = 8490%N \/ c = 304%N -> ~ In c s.
Proof.
  intros H C. apply existsb_exists in H as (a & Ha & Heq).
  apply str_eqb_eq in Heq. subst a. unfold supported_extensions in Ha.
  cbn [In] in Ha. intros I.
  repeat (destruct Ha as [<-|Ha];
          [cbn [In] in I; destruct C as [-> | ->];
           repeat (destruct I as [I|I]; [discriminate I|]); exact I|]).
  exact Ha.
Qed.

(** The handler's membership test on its lower-cased extension is the
    specification's: the same five extensions, the same letters. *)
Lemma includes_allowedTypes_supported (e : jsstring) :
  includes allowedTypes (toLowerCase e)
  = existsb (str_eqb (lowercased e)) supported_extensions.
Proof.
  destruct (in_dec N.eq_dec 8490%N e) as [K|K];
    [|destruct (in_dec N.eq_dec 304%N e) as [I|I]].
  - destruct (includes allowedTypes (toLowerCase e)) eqn:A.
    + contradiction (allowedTypes_letters _ 107%N A (or_introl eq_refl)).
      now apply toLowerCase_kelvin.
    + destruct (existsb (str_eqb (lowercased e)) supported_extensions) eqn:S;
        [|reflexivity].
      contradiction (supported_extensions_letters _ 8490%N S (or_introl eq_refl)).
      apply lowercased_keeps; [lia | exact K].
  - destruct (includes allowedTypes (toLowerCase e)) eqn:A.
    + contradiction (allowedTypes_letters _ 105%N A (or_intror eq_refl)).
      now apply toLowerCase_dotted_I.
    + destruct (existsb (str_eqb (lowercased e)) supported_extensions) eqn:S;
        [|reflexivity].
      contradiction (supported_extensions_letters _ 304%N S (or_intror eq_refl)).
      apply lowercased_keeps; [lia | exact I].
  - rewrite (toLowerCase_lowercased e K I). reflexivity.
Qed.

(** The test of the handler decides [supported_format]. *)
Lemma fileExt_supported (file : File) :
  includes allowedTypes (fileExt file) = supported_format (name file).
Proof.
  rewrite fileExt_final_extension. unfold supported_format.
  destruct (final_extension (name file)); [|reflexivity].
  apply includes_allowedTypes_supported.
Qed.

(** Reading back what [numberToString] prints. *)
Lemma decimal_value_from_digits (d : Decimal.uint) (acc : positive) :
  decimal_value_from (Npos acc) (digits d) = Some (Npos (Pos.of_uint_acc d acc)).
Proof.
  revert acc. induction d as [|d IH|d IH|d IH|d IH|d IH|d IH|d IH|d IH|d IH|d IH];
    intros acc; cbn [digits decimal_value_from Pos.of_uint_acc];
    [reflexivity|..];
    cbn [N.leb N.compare Pos.compare Pos.compare_cont andb];
    rewrite <- IH; f_equal; lia.
Qed.

Lemma decimal_value_from_zero (d : Decimal.uint) :
  decimal_value_from 0%N (digits d) = Some (Pos.of_uint d).
Proof.
  induction d as [|d IH|d IH|d IH|d IH|d IH|d IH|d IH|d IH|d IH|d IH];
    cbn [digits decimal_value_from Pos.of_uint];
    [reflexivity|..];
    cbn [N.leb N.compare Pos.compare Pos.compare_cont andb];
    [exact IH|..];
    rewrite <- decimal_value_from_digits; f_equal.
Qed.

Lemma digits_nil (d : Decimal.uint) : digits d = [] -> d = Decimal.Nil.
Proof. destruct d; cbn [digits]; [reflexivity|discriminate..]. Qed.

(** The numeral printed for [n] denotes [n]. *)
Lemma decimal_value_numberToString (n : N) :
  decimal_value (numberToString n) = Some n.
Proof.
  unfold decimal_value, numberToString.
  destruct (digits (N.to_uint n)) eqn:D.
  - apply digits_nil in D.
    pose proof (DecimalN.Unsigned.of_to n) as R. rewrite D in R.
    cbn in R. subst n. discriminate D.
  - rewrite <- D, decimal_value_from_zero.
    f_equal. apply DecimalN.Unsigned.of_to.
Qed.

End StringFacts.

(** ** One step of the event loop *)

Ltac exec := unfold run, step, execState; simpl.

Section Steps.

Lemma nth_error_snoc {A : Type} (l : list A) (x : A) :
  nth_error (l ++ [x]) (length l) = Some x.
Proof. induction l as [|y l IH]; simpl; [reflexivity | exact IH]. Qed.

Lemma remove_nth_snoc {A : Type} (l : list A) (x : A) :
  remove_nth (length l) (l ++ [x]) = l.
Proof. induction l as [|y l IH]; simpl; [reflexivity | now rewrite IH]. Qed.

Lemma step_send_blocked (w : World) (clk : Clock) :
  negb (truthy (trim (input (ui w)))) || loading (ui w) = true ->
  step w (PressSend clk) = w.
Proof. intros H. exec. rewrite H. reflexivity. Qed.

Lemma step_send_ok (w : World) (clk : Clock) :
  truthy (trim (input (ui w))) = true ->
  loading (ui w) = false ->
  step w (PressSend clk) =
  {| ui := {| messages := messages (ui w) ++ [userMessage (ui w) clk];
              input := [];
              loading := true;
              sessionId := sessionId (ui w);
              uploadedFiles := uploadedFiles (ui w);
              uploading := uploading (ui w);
              notification := notification (ui w);
              useRag := useRag (ui w) |};
     fileInputRef := fileInputRef w;
     inflight := inflight w ++ [ChatPost (chatRequest (ui w))];
     timers := timers w |}.
Proof. intros H1 H2. exec. rewrite H1, H2. reflexivity. Qed.

Lemma step_chat_fulfilled (w : World) (n : nat) (body : ChatRequest)
  (data : ChatResponse) (clk : Clock) :
  nth_error (inflight w) n = Some (ChatPost body) ->
  step w (Settled n (Fulfilled (ChatData data)) clk) =
  {| ui := {| messages := messages (ui w) ++ [assistantMessage data clk];
              input := input (ui w);
              loading := false;
              sessionId := sessionId (ui w);
              uploadedFiles := uploadedFiles (ui w);
              uploading := uploading (ui w);
              notification := notification (ui w);
              useRag := useRag (ui w) |};
     fileInputRef := fileInputRef w;
     inflight := remove_nth n (inflight w);
     timers := timers w |}.
Proof. intros H. exec. rewrite H. reflexivity. Qed.

Lemma step_chat_rejected (w : World) (n : nat) (body : ChatRequest)
  (err : AxiosError) (clk : Clock) :
  nth_error (inflight w) n = Some (ChatPost body) ->
  step w (Settled n (Rejected err) clk) =
  {| ui := {| messages := messages (ui w) ++ [errorMessage clk];
              input := input (ui w);
              loading := false;
              sessionId := sessionId (ui w);
              uploadedFiles := uploadedFiles (ui w);
              uploading := uploading (ui w);
              notification :=
                Some {| type := error;
                        message := or_default (detail err)
                                     (lit "Failed to send message") |};
              useRag := useRag (ui w) |};
     fileInputRef := fileInputRef w;
     inflight := remove_nth n (inflight w);
     timers := S (timers w) |}.
Proof. intros H. exec. rewrite H. reflexivity. Qed.

Lemma step_upload_fulfilled (w : World) (n : nat) (file : File)
  (data : UploadResponse) (clk : Clock) :
  nth_error (inflight w) n = Some (UploadPost file) ->
  step w (Settled n (Fulfilled (UploadData data)) clk) =
  {| ui := {| messages := messages (ui w);
              input := input (ui w);
              loading := loading (ui w);
              sessionId := sessionId (ui w);
              uploadedFiles := uploadedFiles (ui w) ++ [uploadedFile data clk];
              uploading := false;
              notification :=
                Some {| type := success; message := uploadedNotice file data |};
              useRag := useRag (ui w) |};
     fileInputRef := option_map (fun _ => []) (fileInputRef w);
     inflight := remove_nth n (inflight w);
     timers := S (timers w) |}.
Proof.
  intros H. destruct w as [st [v|] reqs tm]; simpl in H; exec; rewrite H;
    reflexivity.
Qed.

Lemma step_upload_rejected (w : World) (n : nat) (file : File)
  (err : AxiosError) (clk : Clock) :
  nth_error (inflight w) n = Some (UploadPost file) ->
  step w (Settled n (Rejected err) clk) =
  {| ui := {| messages := messages (ui w);
              input := input (ui w);
              loading := loading (ui w);
              sessionId := sessionId (ui w);
              uploadedFiles := uploadedFiles (ui w);
              uploading := false;
              notification :=
                Some {| type := error;
                        message := or_default (detail err) (lit "Upload failed") |};
              useRag := useRag (ui w) |};
     fileInputRef := option_map (fun _ => []) (fileInputRef w);
     inflight := remove_nth n (inflight w);
     timers := S (timers w) |}.
Proof.
  intros H. destruct w as [st [v|] reqs tm]; simpl in H; exec; rewrite H;
    reflexivity.
Qed.

(** Typing a text, sending it, and receiving the answer of that request. *)
Lemma chat_roundtrip (w : World) (text : jsstring) (clk clk' : Clock)
  (data : ChatResponse) :
  truthy (trim text) = true ->
  loading (ui w) = false ->
  run w [ChangeInput text; PressSend clk;
         Settled (length (inflight w)) (Fulfilled (ChatData data)) clk'] =
  {| ui := {| messages := messages (ui w)
                            ++ [userMessage (with_input text (ui w)) clk;
                                assistantMessage data clk'];
              input := [];
              loading := false;
              sessionId := sessionId (ui w);
              uploadedFiles := uploadedFiles (ui w);
              uploading := uploading (ui w);
              notification := notification (ui w);
              useRag := useRag (ui w) |};
     fileInputRef := fileInputRef w;
     inflight := inflight w;
     timers := timers w |}.
Proof.
  intros H1 H2. unfold run. cbn [fold_left].
  set (w0 := step w (ChangeInput text)).
  assert (E0 : w0 = with_ui (with_input text (ui w)) w) by reflexivity.
  rewrite (step_send_ok w0 clk) by (rewrite E0; assumption).
  erewrite step_chat_fulfilled.
  2:{ cbn [inflight]. rewrite E0. cbn [inflight with_ui]. apply nth_error_snoc. }
  rewrite E0. cbn. rewrite remove_nth_snoc, <- app_assoc. reflexivity.
Qed.

End Steps.

(** ** The send handler *)

(** C1. A successful chat call appends exactly two messages, in order: the
    user message whose content is the text that was posted, then the
    assistant message whose content, timestamp and sources come from the
    response (an empty list when the response has no sources).  Two such
    calls in a row extend the transcript by user, assistant, user, assistant
    in call order and leave the earlier messages as they were; from an empty
    transcript that is 4 turns. *)
Theorem chat_success_appends_user_then_assistant
  (w : World) (clk1 clk2 : Clock) (data : ChatResponse) :
  truthy (trim (input (ui w))) = true ->
  loading (ui w) = false ->
  let text := input (ui w) in
  let k := length (inflight w) in
  let w1 := step w (PressSend clk1) in
  let w2 := step w1 (Settled k (Fulfilled (ChatData data)) clk2) in
  nth_error (inflight w1) k
    = Some (ChatPost {| req_message := text;
                        session_id := sessionId (ui w);
                        use_rag := useRag (ui w) |}) /\
  (exists u a : Message.t,
     messages (ui w1) = messages (ui w) ++ [u] /\
     messages (ui w2) = messages (ui w) ++ [u; a] /\
     Message.role u = user /\
     Message.content u = text /\
     Message.role a = assistant /\
     Message.content a = response data /\
     Message.timestamp a = resp_timestamp data /\
     Message.sources a
       = Some (match resp_sources data with Some l => l | None => [] end)) /\
  (forall (text' : jsstring) (clk3 clk4 : Clock) (data' : ChatResponse),
     truthy (trim text') = true ->
     let w3 := run w2 [ChangeInput text'; PressSend clk3;
                       Settled k (Fulfilled (ChatData data')) clk4] in
     exists u a u' a' : Message.t,
       messages (ui w3) = messages (ui w) ++ [u; a; u'; a'] /\
       map Message.role [u; a; u'; a'] = [user; assistant; user; assistant] /\
       map Message.content [u; a; u'; a']
         = [text; response data; text'; response data'] /\
       (messages (ui w) = [] -> length (messages (ui w3)) = 4)).
Proof.
  intros H1 H2 text k w1 w2.
  assert (E1 : w1 = _) by exact (step_send_ok w clk1 H1 H2).
  assert (N1 : nth_error (inflight w1) k = Some (ChatPost (chatRequest (ui w)))).
  { rewrite E1. apply nth_error_snoc. }
  assert (E2 : w2 = _) by exact (step_chat_fulfilled w1 k _ data clk2 N1).
  split; [exact N1|]. split.
  - exists (userMessage (ui w) clk1), (assistantMessage data clk2).
    rewrite E2, E1. cbn [ui messages]. rewrite <- app_assoc.
    repeat split; reflexivity.
  - intros text' clk3 clk4 data' H3 w3.
    assert (K : length (inflight w2) = k).
    { rewrite E2. cbn [inflight]. rewrite E1. cbn [inflight].
      unfold k. now rewrite remove_nth_snoc. }
    assert (L : loading (ui w2) = false) by now rewrite E2.
    unfold w3. rewrite <- K.
    rewrite (chat_roundtrip w2 text' clk3 clk4 data' H3 L).
    exists (userMessage (ui w) clk1), (assistantMessage data clk2),
      (userMessage (with_input text' (ui w2)) clk3), (assistantMessage data' clk4).
    cbn [ui messages]. rewrite E2. cbn [ui messages]. rewrite E1.
    cbn [ui messages]. repeat rewrite <- app_assoc.
    repeat split; try reflexivity.
    intros ->. reflexivity.
Qed.

Lemma chat_success_witness :
  truthy (trim (input (ui typed_hello))) = true /\
  loading (ui typed_hello) = false /\
  truthy (trim (lit "what is the invoice total?")) = true /\
  exists u a u' a' : Message.t,
    messages
      (ui (run (step (step typed_hello (PressSend clk0))
                     (Settled (length (inflight typed_hello))
                              (Fulfilled (ChatData reply_plain)) clk1))
               [ChangeInput (lit "what is the invoice total?"); PressSend clk1;
                Settled (length (inflight typed_hello))
                        (Fulfilled (ChatData reply_cited)) clk1]))
      = messages (ui typed_hello) ++ [u; a; u'; a'] /\
    map Message.role [u; a; u'; a'] = [user; assistant; user; assistant].
Proof.
  assert (H1 : truthy (trim (input (ui typed_hello))) = true)
    by (vm_compute; reflexivity).
  assert (H2 : loading (ui typed_hello) = false) by (vm_compute; reflexivity).
  assert (H3 : truthy (trim (lit "what is the invoice total?")) = true)
    by (vm_compute; reflexivity).
  split; [exact H1|]. split; [exact H2|]. split; [exact H3|].
  destruct (chat_success_appends_user_then_assistant
              typed_hello clk0 clk1 reply_plain H1 H2) as (_ & _ & Two).
  destruct (Two (lit "what is the invoice total?") clk1 clk1 reply_cited H3)
    as (u & a & u' & a' & E & R & _).
  exists u, a, u', a'. exact (conj E R).
Defined.

(** C9. Pressing send while the input is blank (empty or only whitespace) or
    while a send is in flight changes nothing at all: no request is posted
    and the transcript, the input and every other cell stay as they were.
    The send button is disabled under exactly these conditions. *)
Theorem send_is_noop_when_blank_or_loading (w : World) (clk : Clock) :
  blank (input (ui w)) = true \/ loading (ui w) = true ->
  step w (PressSend clk) = w /\
  send_disabled (ui w) = true /\
  (forall st : State,
     send_disabled st = true <-> blank (input st) = true \/ loading st = true).
Proof.
  assert (D : forall st : State,
    send_disabled st = true <-> blank (input st) = true \/ loading st = true).
  { intros st. unfold send_disabled. rewrite truthy_trim_blank, negb_involutive.
    rewrite orb_true_iff. tauto. }
  intros H. split; [|split; [now apply D | exact D]].
  apply step_send_blocked. rewrite truthy_trim_blank, negb_involutive.
  apply orb_true_iff. exact H.
Qed.

Lemma send_noop_witness :
  (blank (input (ui (mount clk0))) = true \/ loading (ui (mount clk0)) = true) /\
  (blank (input (ui (step waiting_for_reply (ChangeInput (lit "again"))))) = true \/
   loading (ui (step waiting_for_reply (ChangeInput (lit "again")))) = true) /\
  step (mount clk0) (PressSend clk1) = mount clk0 /\
  step (step waiting_for_reply (ChangeInput (lit "again"))) (PressSend clk1)
    = step waiting_for_reply (ChangeInput (lit "again")).
Proof.
  assert (H1 : blank (input (ui (mount clk0))) = true \/
               loading (ui (mount clk0)) = true)
    by (left; vm_compute; reflexivity).
  assert (H2 : blank (input (ui (step waiting_for_reply
                                      (ChangeInput (lit "again"))))) = true \/
               loading (ui (step waiting_for_reply
                                 (ChangeInput (lit "again")))) = true)
    by (right; vm_compute; reflexivity).
  split; [exact H1|]. split; [exact H2|]. split.
  - exact (proj1 (send_is_noop_when_blank_or_loading (mount clk0) clk1 H1)).
  - exact (proj1 (send_is_noop_when_blank_or_loading _ clk1 H2)).
Defined.

Lemma run_app (w : World) (es es' : list Event) :
  run w (es ++ es') = run (run w es) es'.
Proof. apply fold_left_app. Qed.

Lemma filter_user_turns (text : jsstring) (old : list Message.t)
  (u a u' a' : Message.t) :
  Message.role u = user -> Message.content u = text ->
  Message.role u' = user -> Message.content u' = text ->
  Message.role a = assistant -> Message.role a' = assistant ->
  length (filter (is_user_turn_with text) (old ++ [u; a; u'; a']))
    = 2 + length (filter (is_user_turn_with text) old).
Proof.
  intros Ru Cu Ru' Cu' Ra Ra'.
  assert (T : str_eqb text text = true) by now apply str_eqb_eq.
  rewrite filter_app, length_app. cbn [filter]. unfold is_user_turn_with.
  rewrite Ru, Cu, Ru', Cu', Ra, Ra', T. cbn [length]. lia.
Qed.

(** C8, as the code has it.  Sending the same text twice is not
    deduplicated when the text is not blank (something is left after
    trimming) and no send is in flight: the transcript gains two user turns
    with that text, each followed by the assistant turn of its own response,
    and the number of user turns holding the text grows by two. *)
Theorem duplicate_sends_are_kept
  (w : World) (text : jsstring) (clk1 clk2 clk3 clk4 : Clock)
  (data data' : ChatResponse) :
  truthy (trim text) = true ->
  loading (ui w) = false ->
  let k := length (inflight w) in
  let w' := run w [ChangeInput text; PressSend clk1;
                   Settled k (Fulfilled (ChatData data)) clk2;
                   ChangeInput text; PressSend clk3;
                   Settled k (Fulfilled (ChatData data')) clk4] in
  exists u a u' a' : Message.t,
    messages (ui w') = messages (ui w) ++ [u; a; u'; a'] /\
    (Message.role u = user /\ Message.content u = text) /\
    (Message.role a = assistant /\ Message.content a = response data) /\
    (Message.role u' = user /\ Message.content u' = text) /\
    (Message.role a' = assistant /\ Message.content a' = response data') /\
    length (filter (is_user_turn_with text) (messages (ui w')))
      = 2 + length (filter (is_user_turn_with text) (messages (ui w))).
Proof.
  intros H1 H2 k w'. unfold w', k.
  change [ChangeInput text; PressSend clk1;
          Settled (length (inflight w)) (Fulfilled (ChatData data)) clk2;
          ChangeInput text; PressSend clk3;
          Settled (length (inflight w)) (Fulfilled (ChatData data')) clk4]
    with ([ChangeInput text; PressSend clk1;
           Settled (length (inflight w)) (Fulfilled (ChatData data)) clk2]
          ++ [ChangeInput text; PressSend clk3;
              Settled (length (inflight w)) (Fulfilled (ChatData data')) clk4]).
  rewrite run_app, (chat_roundtrip w text clk1 clk2 data H1 H2).
  set (w2 := {| ui := _ |}).
  change (length (inflight w)) with (length (inflight w2)).
  rewrite (chat_roundtrip w2 text clk3 clk4 data' H1 eq_refl).
  cbn [ui messages w2]. rewrite <- app_assoc. cbn [app].
  exists (userMessage (with_input text (ui w)) clk1), (assistantMessage data clk2),
    (userMessage (with_input text (ui w2)) clk3), (assistantMessage data' clk4).
  split; [reflexivity|].
  repeat (split; [split; reflexivity|]).
  now apply filter_user_turns.
Qed.

Lemma duplicate_sends_witness :
  truthy (trim (lit "hello")) = true /\
  loading (ui (mount clk0)) = false /\
  exists u a u' a' : Message.t,
    messages
      (ui (run (mount clk0)
             [ChangeInput (lit "hello"); PressSend clk1;
              Settled (length (inflight (mount clk0)))
                      (Fulfilled (ChatData reply_plain)) clk1;
              ChangeInput (lit "hello"); PressSend clk1;
              Settled (length (inflight (mount clk0)))
                      (Fulfilled (ChatData reply_plain)) clk1]))
      = messages (ui (mount clk0)) ++ [u; a; u'; a'] /\
    Message.content u = lit "hello" /\
    Message.content u' = lit "hello".
Proof.
  assert (H1 : truthy (trim (lit "hello")) = true) by (vm_compute; reflexivity).
  assert (H2 : loading (ui (mount clk0)) = false) by reflexivity.
  split; [exact H1|]. split; [exact H2|].
  destruct (duplicate_sends_are_kept (mount clk0) (lit "hello")
              clk1 clk1 clk1 clk1 reply_plain reply_plain H1 H2)
    as (u & a & u' & a' & E & (_ & Cu) & _ & (_ & Cu') & _).
  exists u, a, u', a'. exact (conj E (conj Cu Cu')).
Defined.

(** C8, as stated, fails: a single space is a non-empty text, and sending it
    twice appends no user turn and posts no request. *)
Lemma duplicate_blank_sends_counterexample :
  let text := lit " " in
  let w' := run (mount clk0)
              [ChangeInput text; PressSend clk0; ChangeInput text; PressSend clk1] in
  text <> [] /\
  input (ui (step (mount clk0) (ChangeInput text))) = text /\
  messages (ui w') = [] /\
  inflight w' = [].
Proof.
  cbv zeta.
  split; [vm_compute; discriminate|].
  split; [vm_compute; reflexivity|].
  split; vm_compute; reflexivity.
Qed.

(** C2, as the code has it.  When the chat request fails, the failure is
    shown as an error notification whose text is the detail of the error
    response when it has a non-empty one and the fixed text
    "Failed to send message" otherwise, and the transcript gains exactly one
    assistant message with the fixed apology text and no sources. *)
Theorem chat_failure_is_notified_and_logged
  (w : World) (n : nat) (body : ChatRequest) (err : AxiosError) (clk : Clock) :
  nth_error (inflight w) n = Some (ChatPost body) ->
  let w' := step w (Settled n (Rejected err) clk) in
  notification (ui w')
    = Some {| type := error;
              message := or_default (detail err) (lit "Failed to send message") |} /\
  (exists m : Message.t,
     messages (ui w') = messages (ui w) ++ [m] /\
     Message.role m = assistant /\
     Message.content m = error_content /\
     Message.sources m = None) /\
  loading (ui w') = false.
Proof.
  intros H w'. unfold w'. rewrite (step_chat_rejected w n body err clk H).
  cbn [ui notification messages loading].
  split; [reflexivity|]. split; [|reflexivity].
  exists (errorMessage clk). repeat split.
Qed.

Lemma chat_failure_witness :
  nth_error (inflight waiting_for_reply) 0
    = Some (ChatPost (chatRequest (ui typed_hello))) /\
  exists m : Message.t,
    messages (ui (step waiting_for_reply
                       (Settled 0 (Rejected {| detail := None |}) clk1)))
      = messages (ui waiting_for_reply) ++ [m] /\
    Message.role m = assistant /\
    Message.content m = error_content /\
    Message.sources m = None.
Proof.
  assert (H : nth_error (inflight waiting_for_reply) 0
              = Some (ChatPost (chatRequest (ui typed_hello))))
    by (vm_compute; reflexivity).
  split; [exact H|].
  exact (proj1 (proj2
           (chat_failure_is_notified_and_logged
              waiting_for_reply 0 _ {| detail := None |} clk1 H))).
Defined.

(** C2, as stated, fails: after "hello" was sent and its request was
    rejected without a detail, the transcript has gained an assistant turn
    holding the canned apology, and the notification is the generic text. *)
Lemma chat_failure_counterexample :
  let w := waiting_for_reply in
  let w' := step w (Settled 0 (Rejected {| detail := None |}) clk1) in
  nth_error (inflight w) 0
    = Some (ChatPost {| req_message := lit "hello";
                        session_id := lit "session_1700000000000";
                        use_rag := true |}) /\
  map Message.role (messages (ui w)) = [user] /\
  map Message.role (messages (ui w')) = [user; assistant] /\
  map Message.content (messages (ui w')) = [lit "hello"; error_content] /\
  messages (ui w') <> messages (ui w) /\
  notification (ui w')
    = Some {| type := error; message := lit "Failed to send message" |}.
Proof.
  cbv zeta.
  split; [vm_compute; reflexivity|].
  split; [vm_compute; reflexivity|].
  split; [vm_compute; reflexivity|].
  split; [vm_compute; reflexivity|].
  split; [vm_compute; discriminate|].
  vm_compute; reflexivity.
Qed.

(** C4. A successful response without a citation list is recorded as an
    assistant turn whose citation list is present and empty, for which no
    sources block is rendered; a sources block is rendered exactly when the
    message's citation list is non-empty. *)
Theorem missing_citations_become_empty_list
  (w : World) (n : nat) (body : ChatRequest) (data : ChatResponse) (clk : Clock) :
  nth_error (inflight w) n = Some (ChatPost body) ->
  resp_sources data = None ->
  let w' := step w (Settled n (Fulfilled (ChatData data)) clk) in
  (exists a : Message.t,
     messages (ui w') = messages (ui w) ++ [a] /\
     Message.role a = assistant /\
     Message.sources a = Some [] /\
     renders_sources a = false) /\
  (forall m : Message.t,
     renders_sources m = true <->
     exists (s : SourceDocument.t) (l : list SourceDocument.t),
       Message.sources m = Some (s :: l)).
Proof.
  intros H S w'. unfold w'. rewrite (step_chat_fulfilled w n body data clk H).
  cbn [ui messages]. split.
  - exists (assistantMessage data clk). unfold assistantMessage, renders_sources.
    cbn [Message.role Message.sources]. rewrite S. repeat split.
  - intros m. unfold renders_sources.
    destruct (Message.sources m) as [[|s l]|]; cbn; split;
      try discriminate; try reflexivity.
    + intros (s & l & E). discriminate.
    + intros _. now exists s, l.
    + intros (s & l & E). discriminate.
Qed.

Lemma missing_citations_witness :
  nth_error (inflight waiting_for_reply) 0
    = Some (ChatPost (chatRequest (ui typed_hello))) /\
  resp_sources reply_plain = None /\
  exists a : Message.t,
    messages (ui (step waiting_for_reply
                       (Settled 0 (Fulfilled (ChatData reply_plain)) clk1)))
      = messages (ui waiting_for_reply) ++ [a] /\
    Message.role a = assistant /\
    Message.sources a = Some [] /\
    renders_sources a = false.
Proof.
  assert (H : nth_error (inflight waiting_for_reply) 0
              = Some (ChatPost (chatRequest (ui typed_hello))))
    by (vm_compute; reflexivity).
  split; [exact H|]. split; [reflexivity|].
  exact (proj1 (missing_citations_become_empty_list
                  waiting_for_reply 0 _ reply_plain clk1 H eq_refl)).
Defined.

(** ** The upload handler *)

Example supported_upper_case : supported_format (lit "Report.PDF") = true.
Proof. vm_compute; reflexivity. Qed.

Example supported_last_extension_only : supported_format (lit "notes.txt.exe") = false.
Proof. vm_compute; reflexivity. Qed.

Example supported_needs_a_dot : supported_format (lit "pdf") = false.
Proof. vm_compute; reflexivity. Qed.

Example supported_all_five :
  forallb supported_format
    [lit "a.pdf"; lit "b.TXT"; lit "c.Docx"; lit "d.e.pptx"; lit ".XLSX"] = true.
Proof. vm_compute; reflexivity. Qed.

Example unsupported_look_alikes :
  existsb supported_format
    [lit "a.doc"; lit "b.pdf "; lit "c.pdf.zip"; lit "xlsx"; lit "d."; lit ""]
  = false.
Proof. vm_compute; reflexivity. Qed.

Example unsupported_file_rejected :
  let w' := step (mount clk0) (ChooseFile (Some setup_exe)) in
  inflight w' = [] /\
  uploadedFiles (ui w') = [] /\
  notification (ui w')
    = Some {| type := error;
              message := lit "Unsupported file type. Allowed: .pdf, .txt, .docx, .pptx, .xlsx" |}.
Proof. vm_compute. repeat split. Qed.

Example supported_file_posted :
  inflight (step (mount clk0) (ChooseFile (Some report_pdf))) = [UploadPost report_pdf].
Proof. vm_compute; reflexivity. Qed.

(** C3. A chosen file whose name's final extension, lower-cased, is not one
    of .pdf, .txt, .docx, .pptx, .xlsx is rejected: an error notification is
    shown, no request joins the ones in flight and the uploaded-files list is
    unchanged.  For a file whose extension is in the set, an upload request
    carrying the file is posted. *)
Theorem upload_gated_by_extension (w : World) (file : File) :
  let w' := step w (ChooseFile (Some file)) in
  (supported_format (name file) = false ->
   inflight w' = inflight w /\
   uploadedFiles (ui w') = uploadedFiles (ui w) /\
   notification (ui w')
     = Some {| type := error; message := unsupportedNotice |}) /\
  (supported_format (name file) = true ->
   inflight w' = inflight w ++ [UploadPost file]).
Proof.
  intros w'. unfold w'. rewrite <- fileExt_supported.
  unfold step, dispatch, handleFileUpload.
  destruct (includes allowedTypes (fileExt file));
    destruct w as [st [v|] reqs tm]; cbn; split; intros H;
    try discriminate H; auto.
Qed.

Lemma upload_gated_witness :
  supported_format (name report_pdf) = true /\
  supported_format (name setup_exe) = false /\
  inflight (step (mount clk0) (ChooseFile (Some report_pdf)))
    = inflight (mount clk0) ++ [UploadPost report_pdf] /\
  (inflight (step (mount clk0) (ChooseFile (Some setup_exe)))
     = inflight (mount clk0) /\
   uploadedFiles (ui (step (mount clk0) (ChooseFile (Some setup_exe))))
     = uploadedFiles (ui (mount clk0)) /\
   notification (ui (step (mount clk0) (ChooseFile (Some setup_exe))))
     = Some {| type := error; message := unsupportedNotice |}).
Proof.
  assert (P : supported_format (name report_pdf) = true)
    by (vm_compute; reflexivity).
  assert (E : supported_format (name setup_exe) = false)
    by (vm_compute; reflexivity).
  split; [exact P|]. split; [exact E|]. split.
  - exact (proj2 (upload_gated_by_extension (mount clk0) report_pdf) P).
  - exact (proj1 (upload_gated_by_extension (mount clk0) setup_exe) E).
Defined.

(** C5. A successful upload appends exactly one entry to the uploaded-files
    list, carrying the id, filename and chunk count of the response, and the
    entries already in the list stay as they were.  A success notification
    is shown that reports the chunk count: for a count that a JS number
    holds exactly (below 2^53) its text is the file name, " uploaded
    successfully! ", a decimal numeral that denotes the count, and
    " chunks created.". *)
Theorem upload_success_appends_one_entry
  (w : World) (n : nat) (file : File) (data : UploadResponse) (clk : Clock) :
  nth_error (inflight w) n = Some (UploadPost file) ->
  let w' := step w (Settled n (Fulfilled (UploadData data)) clk) in
  (exists entry : UploadedFile.t,
     uploadedFiles (ui w') = uploadedFiles (ui w) ++ [entry] /\
     UploadedFile.file_id entry = resp_file_id data /\
     UploadedFile.filename entry = resp_filename data /\
     UploadedFile.chunks_created entry = resp_chunks_created data) /\
  ((resp_chunks_created data < 2 ^ 53)%N ->
   exists numeral : jsstring,
     decimal_value numeral = Some (resp_chunks_created data) /\
     notification (ui w')
       = Some {| type := success;
                 message := name file ++ lit " uploaded successfully! "
                              ++ numeral ++ lit " chunks created." |}).
Proof.
  intros H w'. unfold w'. rewrite (step_upload_fulfilled w n file data clk H).
  cbn [ui uploadedFiles notification]. split.
  - exists (uploadedFile data clk). repeat split.
  - intros _. exists (numberToString (resp_chunks_created data)).
    split; [apply decimal_value_numberToString | reflexivity].
Qed.

Lemma upload_success_witness :
  nth_error (inflight waiting_for_upload) 0 = Some (UploadPost report_pdf) /\
  (resp_chunks_created ingest_reply < 2 ^ 53)%N /\
  (exists entry : UploadedFile.t,
     uploadedFiles (ui (step waiting_for_upload
                             (Settled 0 (Fulfilled (UploadData ingest_reply)) clk1)))
       = uploadedFiles (ui waiting_for_upload) ++ [entry] /\
     UploadedFile.file_id entry = resp_file_id ingest_reply /\
     UploadedFile.filename entry = resp_filename ingest_reply /\
     UploadedFile.chunks_created entry = resp_chunks_created ingest_reply) /\
  (exists numeral : jsstring,
     decimal_value numeral = Some (resp_chunks_created ingest_reply) /\
     notification
       (ui (step waiting_for_upload
                 (Settled 0 (Fulfilled (UploadData ingest_reply)) clk1)))
       = Some {| type := success;
                 message := name report_pdf ++ lit " uploaded successfully! "
                              ++ numeral ++ lit " chunks created." |}).
Proof.
  assert (H : nth_error (inflight waiting_for_upload) 0 = Some (UploadPost report_pdf))
    by (vm_compute; reflexivity).
  assert (B : (resp_chunks_created ingest_reply < 2 ^ 53)%N)
    by (vm_compute; reflexivity).
  split; [exact H|]. split; [exact B|].
  destruct (upload_success_appends_one_entry
              waiting_for_upload 0 report_pdf ingest_reply clk1 H) as (E & N).
  split; [exact E | exact (N B)].
Defined.

Example upload_success_notice :
  notification (ui (step waiting_for_upload
                         (Settled 0 (Fulfilled (UploadData ingest_reply)) clk1)))
  = Some {| type := success;
            message := lit "Report.PDF uploaded successfully! 3 chunks created." |}.
Proof. vm_compute; reflexivity. Qed.



(** ** The transcript *)

Section Transcript.

Lemma turn_ok_user (st : State) (clk : Clock) : turn_ok (userMessage st clk).
Proof. split; [now left | intros H; now contradiction H]. Qed.

Lemma turn_ok_assistant (m : Message.t) : Message.role m = assistant -> turn_ok m.
Proof. intros H. split; [now right | now intros _]. Qed.

Lemma same_transcript (w w' : World) :
  messages (ui w') = messages (ui w) ->
  exists suffix : list Message.t,
    messages (ui w') = messages (ui w) ++ suffix /\ Forall turn_ok suffix.
Proof. intros ->. exists []. now rewrite app_nil_r. Qed.

(** Every event but a confirmed clear extends the transcript, and only by
    turns that respect the invariant. *)
Lemma step_extends_transcript (w : World) (e : Event) :
  e <> ClickClear true ->
  exists suffix : list Message.t,
    messages (ui (step w e)) = messages (ui w) ++ suffix /\ Forall turn_ok suffix.
Proof.
  intros NC. destruct e as [text|clk|file0|confirmed| | |n out clk].
  - now apply same_transcript.
  - destruct (negb (truthy (trim (input (ui w)))) || loading (ui w)) eqn:G.
    + rewrite (step_send_blocked w clk G). now apply same_transcript.
    + apply orb_false_iff in G as [G1 G2]. apply negb_false_iff in G1.
      rewrite (step_send_ok w clk G1 G2). cbn [ui messages].
      exists [userMessage (ui w) clk]. split; [reflexivity|].
      constructor; [apply turn_ok_user | constructor].
  - apply same_transcript. unfold step, dispatch, handleFileUpload.
    destruct file0 as [file|];
      [destruct (includes allowedTypes (fileExt file))|];
      destruct w as [st [v|] reqs tm]; reflexivity.
  - destruct confirmed; [now contradiction NC | now apply same_transcript].
  - now apply same_transcript.
  - apply same_transcript. unfold step, dispatch, timerFired, execState.
    cbn. destruct (timers w); reflexivity.
  - destruct (nth_error (inflight w) n) as [[body|file]|] eqn:N;
      destruct out as [[data|data]|err];
      try (apply same_transcript; exec; rewrite N; reflexivity).
    + rewrite (step_chat_fulfilled w n body data clk N). cbn [ui messages].
      exists [assistantMessage data clk]. split; [reflexivity|].
      constructor; [now apply turn_ok_assistant | constructor].
    + rewrite (step_chat_rejected w n body err clk N). cbn [ui messages].
      exists [errorMessage clk]. split; [reflexivity|].
      constructor; [now apply turn_ok_assistant | constructor].
    + rewrite (step_upload_fulfilled w n file data clk N).
      now apply same_transcript.
    + rewrite (step_upload_rejected w n file err clk N).
      now apply same_transcript.
Qed.

Lemma step_clear (w : World) :
  step w (ClickClear true) =
  {| ui := {| messages := [];
              input := input (ui w);
              loading := loading (ui w);
              sessionId := sessionId (ui w);
              uploadedFiles := uploadedFiles (ui w);
              uploading := uploading (ui w);
              notification :=
                Some {| type := success; message := lit "Chat cleared" |};
              useRag := useRag (ui w) |};
     fileInputRef := fileInputRef w;
     inflight := inflight w;
     timers := S (timers w) |}.
Proof. reflexivity. Qed.

Lemma reachable_run (clk : Clock) (es : list Event) : reachable (run (mount clk) es).
Proof.
  induction es as [|e es IH] using rev_ind.
  - apply reach_mount.
  - rewrite run_app. apply (reach_step _ e IH).
Qed.

Lemma reachable_turns_ok (w : World) :
  reachable w -> Forall turn_ok (messages (ui w)).
Proof.
  induction 1 as [clk|w e R IH].
  - constructor.
  - destruct e as [text|clk|file0|[|]| | |n out clk];
      try (match goal with
           | |- context [step w ?e] =>
               destruct (step_extends_transcript w e) as (suffix & -> & S);
                 [discriminate | apply Forall_app; now split]
           end).
    rewrite step_clear. constructor.
Qed.

End Transcript.

(** C6. In every state the component can reach, each message of the
    transcript has role user or assistant and only assistant messages carry
    a citation list; the user message built by sending has none.  Every
    event other than a confirmed clear leaves the transcript a prefix of the
    new one. *)
Theorem transcript_invariant :
  (forall w : World, reachable w -> Forall turn_ok (messages (ui w))) /\
  (forall (w : World) (clk : Clock),
     truthy (trim (input (ui w))) = true ->
     loading (ui w) = false ->
     exists u : Message.t,
       messages (ui (step w (PressSend clk))) = messages (ui w) ++ [u] /\
       Message.role u = user /\
       Message.sources u = None) /\
  (forall (w : World) (e : Event),
     e <> ClickClear true ->
     exists suffix : list Message.t,
       messages (ui (step w e)) = messages (ui w) ++ suffix).
Proof.
  split; [exact reachable_turns_ok|]. split.
  - intros w clk H1 H2. rewrite (step_send_ok w clk H1 H2).
    exists (userMessage (ui w) clk). repeat split.
  - intros w e NC. destruct (step_extends_transcript w e NC) as (suffix & E & _).
    now exists suffix.
Qed.

Lemma transcript_invariant_witness :
  reachable waiting_for_reply /\
  Forall turn_ok (messages (ui waiting_for_reply)) /\
  (truthy (trim (input (ui typed_hello))) = true /\
   loading (ui typed_hello) = false /\
   exists u : Message.t,
     messages (ui (step typed_hello (PressSend clk0)))
       = messages (ui typed_hello) ++ [u] /\
     Message.role u = user /\
     Message.sources u = None) /\
  (Settled 0 (Rejected {| detail := None |}) clk1 <> ClickClear true /\
   exists suffix : list Message.t,
     messages (ui (step waiting_for_reply
                        (Settled 0 (Rejected {| detail := None |}) clk1)))
       = messages (ui waiting_for_reply) ++ suffix).
Proof.
  assert (R : reachable waiting_for_reply) by apply reachable_run.
  assert (H1 : truthy (trim (input (ui typed_hello))) = true)
    by (vm_compute; reflexivity).
  assert (H2 : loading (ui typed_hello) = false) by (vm_compute; reflexivity).
  assert (NC : Settled 0 (Rejected {| detail := None |}) clk1 <> ClickClear true)
    by discriminate.
  destruct transcript_invariant as (I & U & A).
  split; [exact R|]. split; [exact (I _ R)|]. split.
  - split; [exact H1|]. split; [exact H2|]. exact (U typed_hello clk0 H1 H2).
  - split; [exact NC|]. exact (A waiting_for_reply _ NC).
Defined.

(** C7. A confirmed clear empties the transcript and keeps the session id:
    a text sent afterwards is posted under the same session id and becomes
    the first turn.  Besides the message list and the notification nothing
    changes: uploaded files, RAG toggle, input, the loading and uploading
    flags, the file input and the requests in flight are untouched.  A
    declined confirmation changes nothing. *)
Theorem clear_empties_transcript_only (w : World) :
  let w' := step w (ClickClear true) in
  messages (ui w') = [] /\
  sessionId (ui w') = sessionId (ui w) /\
  (uploadedFiles (ui w') = uploadedFiles (ui w) /\
   useRag (ui w') = useRag (ui w) /\
   input (ui w') = input (ui w) /\
   loading (ui w') = loading (ui w) /\
   uploading (ui w') = uploading (ui w) /\
   fileInputRef w' = fileInputRef w /\
   inflight w' = inflight w) /\
  notification (ui w')
    = Some {| type := success; message := lit "Chat cleared" |} /\
  (forall (text : jsstring) (clk : Clock),
     truthy (trim text) = true ->
     loading (ui w) = false ->
     let w2 := run w' [ChangeInput text; PressSend clk] in
     (exists u : Message.t,
        messages (ui w2) = [u] /\
        Message.role u = user /\
        Message.content u = text) /\
     inflight w2
       = inflight w ++ [ChatPost {| req_message := text;
                                    session_id := sessionId (ui w);
                                    use_rag := useRag (ui w) |}]) /\
  step w (ClickClear false) = w.
Proof.
  intros w'. unfold w'. rewrite step_clear.
  cbn [ui messages sessionId uploadedFiles useRag input loading uploading
       notification fileInputRef inflight].
  split; [reflexivity|]. split; [reflexivity|].
  split; [repeat split|]. split; [reflexivity|]. split.
  2:{ destruct w as [[] ? ? ?]. reflexivity. }
  intros text clk H1 H2. unfold run. cbn [fold_left].
  set (w0 := step _ (ChangeInput text)).
  rewrite (step_send_ok w0 clk H1 H2). cbn [ui messages inflight].
  split; [|reflexivity].
  exists (userMessage (ui w0) clk). repeat split.
Qed.

Lemma clear_witness :
  truthy (trim (lit "hello again")) = true /\
  loading (ui (mount clk0)) = false /\
  inflight (run (step (mount clk0) (ClickClear true))
                [ChangeInput (lit "hello again"); PressSend clk1])
    = inflight (mount clk0)
        ++ [ChatPost {| req_message := lit "hello again";
                        session_id := sessionId (ui (mount clk0));
                        use_rag := useRag (ui (mount clk0)) |}].
Proof.
  assert (H1 : truthy (trim (lit "hello again")) = true)
    by (vm_compute; reflexivity).
  assert (H2 : loading (ui (mount clk0)) = false) by reflexivity.
  split; [exact H1|]. split; [exact H2|].
  destruct (clear_empties_transcript_only (mount clk0)) as (_ & _ & _ & _ & S & _).
  exact (proj2 (S (lit "hello again") clk1 H1 H2)).
Defined.

(** * Further properties of the component *)

(** ** The remaining events, step by step *)

Section MoreSteps.

Lemma step_change_input (w : World) (text : jsstring) :
  step w (ChangeInput text) = with_ui (with_input text (ui w)) w.
Proof. reflexivity. Qed.

Lemma step_toggle (w : World) :
  step w ToggleRag = with_ui (with_useRag (negb (useRag (ui w))) (ui w)) w.
Proof. reflexivity. Qed.

Lemma step_clear_declined (w : World) : step w (ClickClear false) = w.
Proof. destruct w as [[] ? ? ?]. reflexivity. Qed.

Lemma step_choose_none (w : World) :
  step w (ChooseFile None)
  = with_fileInputRef (option_map (fun _ => []) (fileInputRef w)) w.
Proof. destruct w as [[] [v|] ? ?]; reflexivity. Qed.

Lemma step_choose_unsupported (w : World) (file : File) :
  includes allowedTypes (fileExt file) = false ->
  step w (ChooseFile (Some file)) =
  {| ui := with_notification
             (Some {| type := error; message := unsupportedNotice |}) (ui w);
     fileInputRef :=
       option_map (fun _ => lit "C:\fakepath\" ++ name file) (fileInputRef w);
     inflight := inflight w;
     timers := S (timers w) |}.
Proof.
  intros H. unfold step, dispatch, handleFileUpload. rewrite H.
  destruct w as [st [v|] reqs tm]; reflexivity.
Qed.

Lemma step_choose_supported (w : World) (file : File) :
  includes allowedTypes (fileExt file) = true ->
  step w (ChooseFile (Some file)) =
  {| ui := with_uploading true (ui w);
     fileInputRef :=
       option_map (fun _ => lit "C:\fakepath\" ++ name file) (fileInputRef w);
     inflight := inflight w ++ [UploadPost file];
     timers := timers w |}.
Proof.
  intros H. unfold step, dispatch, handleFileUpload. rewrite H.
  destruct w as [st [v|] reqs tm]; reflexivity.
Qed.

Lemma step_timer_idle (w : World) : timers w = 0 -> step w TimerFired = w.
Proof.
  intros H. unfold step, dispatch, timerFired, execState. cbn. now rewrite H.
Qed.

Lemma step_timer_fired (w : World) (k : nat) :
  timers w = S k ->
  step w TimerFired =
  {| ui := with_notification None (ui w);
     fileInputRef := fileInputRef w;
     inflight := inflight w;
     timers := k |}.
Proof.
  intros H. unfold step, dispatch, timerFired, execState. cbn. now rewrite H.
Qed.

End MoreSteps.

(** Case analysis on an event: [step w e] is replaced by the world it
    produces, with the deciding condition left in the context as [G]. *)
Ltac event_cases w e :=
  destruct e as [text|clk|file0|confirmed| | |n out clk];
  [ rewrite (step_change_input w text)
  | destruct (negb (truthy (trim (input (ui w)))) || loading (ui w)) eqn:G;
    [ rewrite (step_send_blocked w clk G)
    | let G' := fresh "G" in
      apply orb_false_iff in G; destruct G as [G G'];
      apply negb_false_iff in G; rewrite (step_send_ok w clk G G') ]
  | destruct file0 as [file|];
    [ destruct (includes allowedTypes (fileExt file)) eqn:G;
      [ rewrite (step_choose_supported w file G)
      | rewrite (step_choose_unsupported w file G) ]
    | rewrite (step_choose_none w) ]
  | destruct confirmed;
    [ rewrite (step_clear w) | rewrite (step_clear_declined w) ]
  | rewrite (step_toggle w)
  | let k := fresh "k" in
    destruct (timers w) as [|k] eqn:G;
    [ rewrite (step_timer_idle w G) | rewrite (step_timer_fired w k G) ]
  | destruct (nth_error (inflight w) n) as [[body|file]|] eqn:G;
    destruct out as [[data|data]|err];
    first
      [ rewrite (step_chat_fulfilled w n body data clk G)
      | rewrite (step_chat_rejected w n body err clk G)
      | rewrite (step_upload_fulfilled w n file data clk G)
      | rewrite (step_upload_rejected w n file err clk G)
      | replace (step w (Settled n _ clk)) with w
          by (unfold step, execState; simpl; rewrite G; reflexivity) ] ].

(** ** Pressing send *)

(** X1. In the event loop, where React has re-rendered before the next
    event is handled, the send button is disabled once send has been pressed,
    whatever the state before, and a second press handled next changes
    nothing: it posts no second request.  Two presses dispatched on one
    render, before the re-render, are not events of this loop. *)
Theorem send_press_is_idempotent (w : World) (clk clk' : Clock) :
  send_disabled (ui (step w (PressSend clk))) = true /\
  step (step w (PressSend clk)) (PressSend clk') = step w (PressSend clk).
Proof.
  assert (D : send_disabled (ui (step w (PressSend clk))) = true).
  { destruct (negb (truthy (trim (input (ui w)))) || loading (ui w)) eqn:G.
    - rewrite (step_send_blocked w clk G). unfold send_disabled.
      rewrite orb_comm. exact G.
    - apply orb_false_iff in G as [G1 G2]. apply negb_false_iff in G1.
      rewrite (step_send_ok w clk G1 G2). reflexivity. }
  split; [exact D|].
  apply step_send_blocked. unfold send_disabled in D. rewrite orb_comm. exact D.
Qed.

(** X2. A key press sends exactly when the key is Enter and Shift is not
    held: then the default action is prevented and the world changes as for
    the send button, even when the guard of the send makes that no change.
    Any other key, and Shift+Enter, changes nothing and prevents nothing. *)
Theorem key_press_sends_on_plain_enter
  (w : World) (e : KeyboardEvent) (clk : Clock) :
  (key e = lit "Enter" -> shiftKey e = false ->
   runState (handleKeyPress e clk) w = (true, step w (PressSend clk))) /\
  (key e <> lit "Enter" \/ shiftKey e = true ->
   runState (handleKeyPress e clk) w = (false, w)).
Proof.
  split.
  - intros K S. unfold handleKeyPress. rewrite K, S.
    replace (str_eqb (lit "Enter") (lit "Enter")) with true
      by (symmetry; now apply str_eqb_eq).
    cbn [andb negb]. unfold step, execState, dispatch. cbn.
    destruct (negb (truthy (trim (input (ui w)))) || loading (ui w));
      reflexivity.
  - intros H. unfold handleKeyPress.
    destruct (str_eqb (key e) (lit "Enter")) eqn:K.
    + apply str_eqb_eq in K. destruct H as [H|H]; [contradiction|].
      rewrite H. reflexivity.
    + reflexivity.
Qed.

Lemma key_press_witness :
  key {| key := lit "Enter"; shiftKey := false |} = lit "Enter" /\
  shiftKey {| key := lit "Enter"; shiftKey := false |} = false /\
  (key {| key := lit "Enter"; shiftKey := true |} <> lit "Enter" \/
   shiftKey {| key := lit "Enter"; shiftKey := true |} = true) /\
  runState (handleKeyPress {| key := lit "Enter"; shiftKey := false |} clk0)
           typed_hello
    = (true, step typed_hello (PressSend clk0)) /\
  runState (handleKeyPress {| key := lit "Enter"; shiftKey := true |} clk0)
           typed_hello
    = (false, typed_hello).
Proof.
  assert (H : key {| key := lit "Enter"; shiftKey := true |} <> lit "Enter" \/
              shiftKey {| key := lit "Enter"; shiftKey := true |} = true)
    by (right; reflexivity).
  split; [reflexivity|]. split; [reflexivity|]. split; [exact H|]. split.
  - exact (proj1 (key_press_sends_on_plain_enter typed_hello
                    {| key := lit "Enter"; shiftKey := false |} clk0)
                 eq_refl eq_refl).
  - exact (proj2 (key_press_sends_on_plain_enter typed_hello
                    {| key := lit "Enter"; shiftKey := true |} clk0) H).
Defined.

(** ** One chat request at a time, and turns that alternate *)

Section ChatDiscipline.

Lemma chat_count_snoc (l : list Request) (r : Request) :
  chat_count (l ++ [r]) = chat_count l + (if is_chat r then 1 else 0).
Proof.
  unfold chat_count. rewrite filter_app, length_app. cbn [filter].
  destruct (is_chat r); reflexivity.
Qed.

Lemma chat_count_remove (l : list Request) (n : nat) (r : Request) :
  nth_error l n = Some r ->
  chat_count l = chat_count (remove_nth n l) + (if is_chat r then 1 else 0).
Proof.
  unfold chat_count. revert n. induction l as [|x l IH]; intros [|n] H;
    try discriminate; cbn in H.
  - injection H as ->. cbn [remove_nth filter].
    destruct (is_chat r); cbn [length]; lia.
  - cbn [remove_nth filter]. specialize (IH n H).
    destruct (is_chat x); cbn [length]; lia.
Qed.

Lemma last_role_snoc (rs : list Role) (r : Role) : last_role (rs ++ [r]) = Some r.
Proof.
  induction rs as [|a rs IH]; [reflexivity|].
  cbn [app last_role]. destruct (rs ++ [r]) eqn:E; [|exact IH].
  now destruct rs.
Qed.

Lemma alternating_snoc (rs : list Role) (r : Role) :
  alternating (rs ++ [r]) =
  alternating rs &&
  match last_role rs with
  | Some a => negb (role_eqb a r)
  | None => true
  end.
Proof.
  induction rs as [|a rs IH]; [reflexivity|].
  destruct rs as [|b rs]; [cbn; now rewrite andb_true_r|].
  change (alternating ((a :: b :: rs) ++ [r]))
    with (negb (role_eqb a b) && alternating ((b :: rs) ++ [r])).
  rewrite IH. change (last_role (a :: b :: rs)) with (last_role (b :: rs)).
  change (alternating (a :: b :: rs))
    with (negb (role_eqb a b) && alternating (b :: rs)).
  now rewrite andb_assoc.
Qed.

(** What every event keeps: the number of chat requests in flight follows
    the loading flag, the turns alternate, and the loading flag tells the
    role of the last turn. *)
Lemma step_keeps_chat_discipline (w : World) (e : Event) :
  chat_count (inflight w) = (if loading (ui w) then 1 else 0) /\
  alternating (roles w) = true /\
  (last_role (roles w) = Some user -> loading (ui w) = true) /\
  (last_role (roles w) = Some assistant -> loading (ui w) = false) ->
  chat_count (inflight (step w e))
    = (if loading (ui (step w e)) then 1 else 0) /\
  alternating (roles (step w e)) = true /\
  (last_role (roles (step w e)) = Some user -> loading (ui (step w e)) = true) /\
  (last_role (roles (step w e)) = Some assistant ->
   loading (ui (step w e)) = false).
Proof.
  unfold roles. intros (C & A & LU & LA).
  event_cases w e; cbn [ui messages loading inflight with_ui with_input
    with_uploading with_notification with_useRag with_fileInputRef];
    try (now repeat split).
  - (* a send that goes through *)
    rewrite map_app. cbn [map].
    change (Message.role (userMessage (ui w) clk)) with user.
    rewrite chat_count_snoc, alternating_snoc, last_role_snoc, A, C, G0.
    cbn [is_chat andb Nat.add]. repeat split; try discriminate.
    destruct (last_role (map Message.role (messages (ui w)))) as [[|]|];
      try reflexivity.
    specialize (LU eq_refl). congruence.
  - (* a supported file is chosen *)
    rewrite chat_count_snoc. cbn [is_chat]. rewrite Nat.add_0_r.
    now repeat split.
  - (* the chat request is fulfilled *)
    pose proof (chat_count_remove _ _ _ G) as R. cbn [is_chat] in R.
    assert (L : loading (ui w) = true)
      by (destruct (loading (ui w)); [reflexivity | lia]).
    rewrite L in C. rewrite map_app. cbn [map].
    change (Message.role (assistantMessage data clk)) with assistant.
    rewrite alternating_snoc, last_role_snoc, A.
    cbn [andb]. repeat split; try discriminate; [lia|].
    destruct (last_role (map Message.role (messages (ui w)))) as [[|]|];
      try reflexivity.
    specialize (LA eq_refl). congruence.
  - (* the chat request is rejected *)
    pose proof (chat_count_remove _ _ _ G) as R. cbn [is_chat] in R.
    assert (L : loading (ui w) = true)
      by (destruct (loading (ui w)); [reflexivity | lia]).
    rewrite L in C. rewrite map_app. cbn [map].
    change (Message.role (errorMessage clk)) with assistant.
    rewrite alternating_snoc, last_role_snoc, A.
    cbn [andb]. repeat split; try discriminate; [lia|].
    destruct (last_role (map Message.role (messages (ui w)))) as [[|]|];
      try reflexivity.
    specialize (LA eq_refl). congruence.
  - (* an upload is fulfilled *)
    pose proof (chat_count_remove _ _ _ G) as R. cbn [is_chat] in R.
    rewrite Nat.add_0_r in R. rewrite <- R. now repeat split.
  - (* an upload is rejected *)
    pose proof (chat_count_remove _ _ _ G) as R. cbn [is_chat] in R.
    rewrite Nat.add_0_r in R. rewrite <- R. now repeat split.
Qed.

Lemma reachable_chat_discipline (w : World) :
  reachable w ->
  chat_count (inflight w) = (if loading (ui w) then 1 else 0) /\
  alternating (roles w) = true /\
  (last_role (roles w) = Some user -> loading (ui w) = true) /\
  (last_role (roles w) = Some assistant -> loading (ui w) = false).
Proof.
  induction 1 as [clk|w e R IH].
  - repeat split; discriminate.
  - now apply step_keeps_chat_discipline.
Qed.

End ChatDiscipline.

(** X4. In every reachable state at most one chat request is in flight, and
    the loading flag (the typing indicator) is on exactly while there is
    one. *)
Theorem one_chat_request_at_a_time (w : World) :
  reachable w ->
  chat_count (inflight w) <= 1 /\
  (renders_typing_indicator (ui w) = true <-> chat_count (inflight w) = 1).
Proof.
  intros R. destruct (reachable_chat_discipline w R) as (C & _).
  unfold renders_typing_indicator. rewrite C.
  destruct (loading (ui w)); split; try lia; split; try reflexivity;
    discriminate.
Qed.

Lemma one_chat_request_witness :
  reachable waiting_for_reply /\
  chat_count (inflight waiting_for_reply) <= 1 /\
  (renders_typing_indicator (ui waiting_for_reply) = true <->
   chat_count (inflight waiting_for_reply) = 1).
Proof.
  assert (R : reachable waiting_for_reply) by apply reachable_run.
  split; [exact R|]. exact (one_chat_request_at_a_time waiting_for_reply R).
Defined.

(** X5. In every reachable state the turns of the transcript alternate
    between the two roles; a user turn is the last one only while its
    request is in flight, and an assistant turn is the last one only while
    no request is in flight. *)
Theorem turns_alternate (w : World) :
  reachable w ->
  alternating (roles w) = true /\
  (last_role (roles w) = Some user -> loading (ui w) = true) /\
  (last_role (roles w) = Some assistant -> loading (ui w) = false).
Proof.
  intros R. now destruct (reachable_chat_discipline w R) as (_ & A).
Qed.

Lemma turns_alternate_witness :
  reachable waiting_for_reply /\
  last_role (roles waiting_for_reply) = Some user /\
  alternating (roles waiting_for_reply) = true /\
  loading (ui waiting_for_reply) = true /\
  reachable (run (mount clk0)
               [ChangeInput (lit "hello"); PressSend clk0;
                Settled 0 (Fulfilled (ChatData reply_plain)) clk1]) /\
  last_role (roles (run (mount clk0)
                      [ChangeInput (lit "hello"); PressSend clk0;
                       Settled 0 (Fulfilled (ChatData reply_plain)) clk1]))
    = Some assistant /\
  loading (ui (run (mount clk0)
                 [ChangeInput (lit "hello"); PressSend clk0;
                  Settled 0 (Fulfilled (ChatData reply_plain)) clk1]))
    = false.
Proof.
  assert (R : reachable waiting_for_reply) by apply reachable_run.
  assert (L : last_role (roles waiting_for_reply) = Some user)
    by (vm_compute; reflexivity).
  assert (R' : reachable (run (mount clk0)
                            [ChangeInput (lit "hello"); PressSend clk0;
                             Settled 0 (Fulfilled (ChatData reply_plain)) clk1]))
    by apply reachable_run.
  assert (L' : last_role (roles (run (mount clk0)
                            [ChangeInput (lit "hello"); PressSend clk0;
                             Settled 0 (Fulfilled (ChatData reply_plain)) clk1]))
               = Some assistant)
    by (vm_compute; reflexivity).
  destruct (turns_alternate waiting_for_reply R) as (A & LU & _).
  destruct (turns_alternate _ R') as (_ & _ & LA).
  split; [exact R|]. split; [exact L|]. split; [exact A|].
  split; [exact (LU L)|]. split; [exact R'|]. split; [exact L'|].
  exact (LA L').
Defined.

(** ** The session id *)

Section Session.

Lemma Forall_remove_nth {A : Type} (P : A -> Prop) (l : list A) (n : nat) :
  Forall P l -> Forall P (remove_nth n l).
Proof.
  intros H. revert n. induction H as [|x l Hx Hl IH]; intros [|n];
    cbn [remove_nth]; auto.
Qed.

Lemma step_keeps_session (w : World) (e : Event) :
  Forall (posted_under (sessionId (ui w))) (inflight w) ->
  sessionId (ui (step w e)) = sessionId (ui w) /\
  Forall (posted_under (sessionId (ui w))) (inflight (step w e)).
Proof.
  intros F.
  event_cases w e; cbn [ui sessionId inflight with_ui with_input
    with_uploading with_notification with_useRag with_fileInputRef];
    (split; [reflexivity|]); auto using Forall_remove_nth.
  - apply Forall_app. split; [exact F|]. now repeat constructor.
  - apply Forall_app. split; [exact F|]. now repeat constructor.
Qed.

End Session.

(** X3. The session id is fixed when the component mounts: whatever happens
    afterwards it stays "session_" followed by the clock reading of the
    first render, and every chat request in flight was posted under it. *)
Theorem session_id_is_fixed (clk : Clock) (es : list Event) :
  sessionId (ui (run (mount clk) es)) = lit "session_" ++ numberToString (now clk) /\
  Forall (posted_under (lit "session_" ++ numberToString (now clk)))
         (inflight (run (mount clk) es)).
Proof.
  induction es as [|e es [S F]] using rev_ind.
  - split; [reflexivity | constructor].
  - rewrite run_app. cbn [run fold_left]. fold (run (mount clk) es).
    rewrite <- S in F.
    destruct (step_keeps_session (run (mount clk) es) e F) as [S' F'].
    split; [now rewrite S' | now rewrite <- S].
Qed.

(** ** Clearing while a reply is awaited *)

(** X6. Clearing the chat does not cancel a chat request in flight: the
    request is still awaited after the clear, and when it is fulfilled its
    answer becomes the only turn of the emptied transcript. *)
Theorem clear_does_not_cancel_reply
  (w : World) (n : nat) (body : ChatRequest) (data : ChatResponse) (clk : Clock) :
  nth_error (inflight w) n = Some (ChatPost body) ->
  let w1 := step w (ClickClear true) in
  let w2 := step w1 (Settled n (Fulfilled (ChatData data)) clk) in
  renders_empty_chat (ui w1) = true /\
  nth_error (inflight w1) n = Some (ChatPost body) /\
  exists a : Message.t,
    messages (ui w2) = [a] /\
    Message.role a = assistant /\
    Message.content a = response data.
Proof.
  intros H w1 w2.
  assert (H1 : nth_error (inflight w1) n = Some (ChatPost body)) by exact H.
  split; [reflexivity|]. split; [exact H1|].
  unfold w2. rewrite (step_chat_fulfilled w1 n body data clk H1).
  exists (assistantMessage data clk). repeat split.
Qed.

Lemma clear_does_not_cancel_witness :
  nth_error (inflight waiting_for_reply) 0
    = Some (ChatPost (chatRequest (ui typed_hello))) /\
  exists a : Message.t,
    messages (ui (step (step waiting_for_reply (ClickClear true))
                       (Settled 0 (Fulfilled (ChatData reply_plain)) clk1)))
      = [a] /\
    Message.role a = assistant /\
    Message.content a = response reply_plain.
Proof.
  assert (H : nth_error (inflight waiting_for_reply) 0
              = Some (ChatPost (chatRequest (ui typed_hello))))
    by (vm_compute; reflexivity).
  split; [exact H|].
  exact (proj2 (proj2 (clear_does_not_cancel_reply
                         waiting_for_reply 0 _ reply_plain clk1 H))).
Defined.

(** ** The uploaded-files list and the two halves of the state *)

(** X7. No event removes or rewrites an entry of the uploaded-files list,
    not even clearing the chat: each event appends at most one entry, and
    an entry is appended only when an upload in flight is fulfilled. *)
Theorem uploaded_files_only_grow (w : World) (e : Event) :
  exists suffix : list UploadedFile.t,
    uploadedFiles (ui (step w e)) = uploadedFiles (ui w) ++ suffix /\
    length suffix <= 1 /\
    (suffix <> [] ->
     exists (n : nat) (file : File) (data : UploadResponse) (clk : Clock),
       e = Settled n (Fulfilled (UploadData data)) clk /\
       nth_error (inflight w) n = Some (UploadPost file)).
Proof.
  event_cases w e; cbn [ui uploadedFiles with_ui with_input with_uploading
    with_notification with_useRag with_fileInputRef];
    try (exists []; rewrite app_nil_r; repeat split; auto; easy).
  exists [uploadedFile data clk]. repeat split; auto.
  intros _. now exists n, file, data, clk.
Qed.

Lemma uploaded_files_witness :
  exists suffix : list UploadedFile.t,
    uploadedFiles
      (ui (step waiting_for_upload
                (Settled 0 (Fulfilled (UploadData ingest_reply)) clk1)))
      = uploadedFiles (ui waiting_for_upload) ++ suffix /\
    length suffix <= 1 /\
    suffix <> [] /\
    exists (n : nat) (file : File) (data : UploadResponse) (clk : Clock),
      Settled 0 (Fulfilled (UploadData ingest_reply)) clk1
        = Settled n (Fulfilled (UploadData data)) clk /\
      nth_error (inflight waiting_for_upload) n = Some (UploadPost file).
Proof.
  destruct (uploaded_files_only_grow waiting_for_upload
              (Settled 0 (Fulfilled (UploadData ingest_reply)) clk1))
    as (suffix & E & L & Src).
  assert (NE : suffix <> []).
  { intros ->. vm_compute in E. discriminate E. }
  exists suffix. exact (conj E (conj L (conj NE (Src NE)))).
Defined.

(** X8. Chat and upload do not touch each other's state.  Pressing send and
    the settlement of a chat request leave the uploaded-files list, the
    uploading flag and the file input as they were; choosing a file and the
    settlement of an upload leave the transcript, the input text, the
    loading flag, the session id and the RAG toggle as they were. *)
Theorem chat_and_upload_are_separate (w : World) :
  (forall clk : Clock,
     let w' := step w (PressSend clk) in
     uploadedFiles (ui w') = uploadedFiles (ui w) /\
     uploading (ui w') = uploading (ui w) /\
     fileInputRef w' = fileInputRef w) /\
  (forall (n : nat) (body : ChatRequest) (out : Outcome) (clk : Clock),
     nth_error (inflight w) n = Some (ChatPost body) ->
     let w' := step w (Settled n out clk) in
     uploadedFiles (ui w') = uploadedFiles (ui w) /\
     uploading (ui w') = uploading (ui w) /\
     fileInputRef w' = fileInputRef w) /\
  (forall file0 : option File,
     let w' := step w (ChooseFile file0) in
     messages (ui w') = messages (ui w) /\
     input (ui w') = input (ui w) /\
     loading (ui w') = loading (ui w) /\
     sessionId (ui w') = sessionId (ui w) /\
     useRag (ui w') = useRag (ui w)) /\
  (forall (n : nat) (file : File) (out : Outcome) (clk : Clock),
     nth_error (inflight w) n = Some (UploadPost file) ->
     let w' := step w (Settled n out clk) in
     messages (ui w') = messages (ui w) /\
     input (ui w') = input (ui w) /\
     loading (ui w') = loading (ui w) /\
     sessionId (ui w') = sessionId (ui w) /\
     useRag (ui w') = useRag (ui w)).
Proof.
  split; [|split; [|split]].
  - intros clk w'. unfold w'.
    destruct (negb (truthy (trim (input (ui w)))) || loading (ui w)) eqn:G.
    + rewrite (step_send_blocked w clk G). now repeat split.
    + apply orb_false_iff in G as [G1 G2]. apply negb_false_iff in G1.
      rewrite (step_send_ok w clk G1 G2). now repeat split.
  - intros n body out clk H w'. unfold w'. destruct out as [[data|data]|err].
    + rewrite (step_chat_fulfilled w n body data clk H). now repeat split.
    + replace (step w (Settled n _ clk)) with w
        by (unfold step, execState; simpl; rewrite H; reflexivity).
      now repeat split.
    + rewrite (step_chat_rejected w n body err clk H). now repeat split.
  - intros [file|] w'; unfold w'.
    + destruct (includes allowedTypes (fileExt file)) eqn:G.
      * rewrite (step_choose_supported w file G). now repeat split.
      * rewrite (step_choose_unsupported w file G). now repeat split.
    + rewrite (step_choose_none w). now repeat split.
  - intros n file out clk H w'. unfold w'. destruct out as [[data|data]|err].
    + replace (step w (Settled n _ clk)) with w
        by (unfold step, execState; simpl; rewrite H; reflexivity).
      now repeat split.
    + rewrite (step_upload_fulfilled w n file data clk H). now repeat split.
    + rewrite (step_upload_rejected w n file err clk H). now repeat split.
Qed.

Lemma chat_and_upload_witness :
  nth_error (inflight waiting_for_reply) 0
    = Some (ChatPost (chatRequest (ui typed_hello))) /\
  nth_error (inflight waiting_for_upload) 0 = Some (UploadPost report_pdf) /\
  uploading
    (ui (step waiting_for_reply (Settled 0 (Rejected {| detail := None |}) clk1)))
    = uploading (ui waiting_for_reply) /\
  messages
    (ui (step waiting_for_upload
              (Settled 0 (Fulfilled (UploadData ingest_reply)) clk1)))
    = messages (ui waiting_for_upload).
Proof.
  assert (H1 : nth_error (inflight waiting_for_reply) 0
               = Some (ChatPost (chatRequest (ui typed_hello))))
    by (vm_compute; reflexivity).
  assert (H2 : nth_error (inflight waiting_for_upload) 0
               = Some (UploadPost report_pdf))
    by (vm_compute; reflexivity).
  split; [exact H1|]. split; [exact H2|]. split.
  - destruct (chat_and_upload_are_separate waiting_for_reply) as (_ & C & _).
    exact (proj1 (proj2 (C 0 _ (Rejected {| detail := None |}) clk1 H1))).
  - destruct (chat_and_upload_are_separate waiting_for_upload) as (_ & _ & _ & U).
    exact (proj1 (U 0 report_pdf (Fulfilled (UploadData ingest_reply)) clk1 H2)).
Defined.

(** ** Notifications *)

Section Notifications.

Lemma or_default_nonempty (x : option jsstring) (d : jsstring) :
  d <> [] -> or_default x d <> [].
Proof. intros D. destruct x as [[|c s]|]; cbn; auto. discriminate. Qed.

Lemma uploadedNotice_nonempty (file : File) (data : UploadResponse) :
  uploadedNotice file data <> [].
Proof.
  unfold uploadedNotice. intros E.
  apply app_eq_nil in E as [_ E]. apply app_eq_nil in E as [E _].
  discriminate.
Qed.

Lemma unsupportedNotice_nonempty : unsupportedNotice <> [].
Proof. vm_compute. discriminate. Qed.

(** What every event keeps: a notification that is shown has a text and a
    timer that will dismiss it. *)
Lemma step_keeps_notification (w : World) (e : Event) :
  (forall n : Notification,
     notification (ui w) = Some n -> message n <> [] /\ 0 < timers w) ->
  forall n : Notification,
    notification (ui (step w e)) = Some n ->
    message n <> [] /\ 0 < timers (step w e).
Proof.
  intros I.
  event_cases w e; cbn [ui notification timers with_ui with_input
    with_uploading with_notification with_useRag with_fileInputRef];
    try exact I; try discriminate;
    try (intros m [= <-]; cbn [message]; split; [|lia]).
  - exact unsupportedNotice_nonempty.
  - discriminate.
  - intros m M. destruct (I m M). lia.
  - apply or_default_nonempty. discriminate.
  - apply uploadedNotice_nonempty.
  - apply or_default_nonempty. discriminate.
Qed.

Lemma reachable_notification (w : World) :
  reachable w ->
  forall n : Notification,
    notification (ui w) = Some n -> message n <> [] /\ 0 < timers w.
Proof.
  induction 1 as [clk|w e R IH].
  - discriminate.
  - now apply step_keeps_notification.
Qed.

Lemma reachable_ref_attached (w : World) : reachable w -> fileInputRef w <> None.
Proof.
  induction 1 as [clk|w e R IH]; [discriminate|].
  destruct (fileInputRef w) as [v|] eqn:V; [clear IH | now contradiction IH].
  event_cases w e; cbn [fileInputRef with_ui with_input with_uploading
    with_notification with_useRag with_fileInputRef];
    rewrite ?V; discriminate.
Qed.

End Notifications.

(** X9. In every reachable state a notification that is shown has a pending
    auto-dismiss timer, and a timer that fires always hides the
    notification, also one that was raised after the timer was set. *)
Theorem notification_is_always_dismissed (w : World) :
  reachable w ->
  (notification (ui w) <> None -> 0 < timers w) /\
  (0 < timers w -> notification (ui (step w TimerFired)) = None) /\
  (timers w = 0 -> step w TimerFired = w).
Proof.
  intros R. split; [|split].
  - destruct (notification (ui w)) as [n|] eqn:N; [|now intros []].
    intros _. now destruct (reachable_notification w R n N).
  - intros T. destruct (timers w) as [|k] eqn:K; [lia|].
    now rewrite (step_timer_fired w k K).
  - apply step_timer_idle.
Qed.

Lemma notification_dismissed_witness :
  reachable (step waiting_for_upload
                  (Settled 0 (Rejected {| detail := None |}) clk1)) /\
  notification (ui (step waiting_for_upload
                         (Settled 0 (Rejected {| detail := None |}) clk1)))
    <> None /\
  0 < timers (step waiting_for_upload
                   (Settled 0 (Rejected {| detail := None |}) clk1)) /\
  notification
    (ui (step (step waiting_for_upload
                    (Settled 0 (Rejected {| detail := None |}) clk1))
              TimerFired))
    = None /\
  reachable (mount clk0) /\
  timers (mount clk0) = 0 /\
  step (mount clk0) TimerFired = mount clk0.
Proof.
  assert (R : reachable (step waiting_for_upload
                           (Settled 0 (Rejected {| detail := None |}) clk1)))
    by (apply reach_step, reachable_run).
  assert (N : notification
                (ui (step waiting_for_upload
                          (Settled 0 (Rejected {| detail := None |}) clk1)))
              <> None)
    by (vm_compute; discriminate).
  assert (R0 : reachable (mount clk0)) by apply reach_mount.
  assert (T0 : timers (mount clk0) = 0) by reflexivity.
  destruct (notification_is_always_dismissed _ R) as (T & F & _).
  destruct (notification_is_always_dismissed _ R0) as (_ & _ & I).
  split; [exact R|]. split; [exact N|]. split; [exact (T N)|].
  split; [exact (F (T N))|]. split; [exact R0|]. split; [exact T0|].
  exact (I T0).
Defined.

(** X10. The notification banner never shows an empty text: in every
    reachable state a notification that is shown has a non-empty message,
    also when the server's error detail is missing or is the empty
    string. *)
Theorem notification_text_is_never_empty (w : World) (n : Notification) :
  reachable w ->
  notification (ui w) = Some n ->
  message n <> [].
Proof. intros R N. now destruct (reachable_notification w R n N). Qed.

Lemma notification_text_witness :
  reachable (step waiting_for_reply
                  (Settled 0 (Rejected {| detail := Some [] |}) clk1)) /\
  notification (ui (step waiting_for_reply
                         (Settled 0 (Rejected {| detail := Some [] |}) clk1)))
    = Some {| type := error; message := lit "Failed to send message" |} /\
  message {| type := error; message := lit "Failed to send message" |} <> [].
Proof.
  assert (R : reachable (step waiting_for_reply
                           (Settled 0 (Rejected {| detail := Some [] |}) clk1)))
    by (apply reach_step, reachable_run).
  assert (N : notification
                (ui (step waiting_for_reply
                          (Settled 0 (Rejected {| detail := Some [] |}) clk1)))
              = Some {| type := error; message := lit "Failed to send message" |})
    by (vm_compute; reflexivity).
  split; [exact R|]. split; [exact N|].
  exact (notification_text_is_never_empty _ _ R N).
Defined.

(** X14. In every reachable state the file-input ref is attached, so the
    settlement of an upload, fulfilled or rejected, always leaves the file
    input with the empty value. *)
Theorem file_input_is_reset_after_every_upload
  (w : World) (n : nat) (file : File) (clk : Clock) :
  reachable w ->
  nth_error (inflight w) n = Some (UploadPost file) ->
  fileInputRef w <> None /\
  (forall data : UploadResponse,
     fileInputRef (step w (Settled n (Fulfilled (UploadData data)) clk))
       = Some []) /\
  (forall err : AxiosError,
     fileInputRef (step w (Settled n (Rejected err) clk)) = Some []).
Proof.
  intros R H. pose proof (reachable_ref_attached w R) as A.
  split; [exact A|].
  destruct (fileInputRef w) as [v|] eqn:V; [|now contradiction A].
  split.
  - intros data. rewrite (step_upload_fulfilled w n file data clk H).
    cbn [fileInputRef]. now rewrite V.
  - intros err. rewrite (step_upload_rejected w n file err clk H).
    cbn [fileInputRef]. now rewrite V.
Qed.

Lemma file_input_reset_witness :
  reachable waiting_for_upload /\
  nth_error (inflight waiting_for_upload) 0 = Some (UploadPost report_pdf) /\
  fileInputRef (step waiting_for_upload
                     (Settled 0 (Fulfilled (UploadData ingest_reply)) clk1))
    = Some [].
Proof.
  assert (R : reachable waiting_for_upload) by apply reachable_run.
  assert (H : nth_error (inflight waiting_for_upload) 0
              = Some (UploadPost report_pdf))
    by (vm_compute; reflexivity).
  split; [exact R|]. split; [exact H|].
  exact (proj1 (proj2 (file_input_is_reset_after_every_upload
                         waiting_for_upload 0 report_pdf clk1 R H))
               ingest_reply).
Defined.

(** ** Which file names pass the upload check *)

Section Extensions.

Lemma final_extension_without_dot (s : jsstring) :
  ~ In dot s -> final_extension s = None.
Proof.
  induction s as [|x s IH]; [reflexivity|].
  intros H. cbn [final_extension]. rewrite IH by (intros D; apply H; now right).
  destruct (N.eqb_spec x dot) as [->|]; [|reflexivity].
  contradiction H. now left.
Qed.

Lemma final_extension_split (base ext : jsstring) :
  ~ In dot ext -> final_extension (base ++ dot :: ext) = Some (dot :: ext).
Proof.
  intros H. induction base as [|x base IH].
  - cbn [app final_extension]. rewrite (final_extension_without_dot ext H).
    now rewrite N.eqb_refl.
  - cbn [app final_extension]. now rewrite IH.
Qed.

Lemma final_extension_shape (s e : jsstring) :
  final_extension s = Some e ->
  exists base ext : jsstring,
    s = base ++ dot :: ext /\ e = dot :: ext /\ ~ In dot ext.
Proof.
  revert e. induction s as [|x s IH]; intros e; [discriminate|].
  cbn [final_extension]. destruct (final_extension s) as [e'|] eqn:E.
  - intros [= <-]. destruct (IH e' eq_refl) as (base & ext & -> & -> & D).
    now exists (x :: base), ext.
  - destruct (N.eqb_spec x dot) as [->|]; [|discriminate].
    intros [= <-]. exists [], s. repeat split.
    now apply final_extension_none.
Qed.

End Extensions.

(** X11. The upload check accepts a file exactly when its name splits into
    a base, a dot and a dot-free extension such that the dot with the
    extension, lower-cased, is one of the allowed types.  So only the part
    after the last dot counts, in any letter case, and a name without a dot
    is never accepted. *)
Theorem accepted_iff_last_extension_allowed (file : File) :
  includes allowedTypes (fileExt file) = true <->
  exists base ext : jsstring,
    name file = base ++ dot :: ext /\
    ~ In dot ext /\
    includes allowedTypes (toLowerCase (dot :: ext)) = true.
Proof.
  rewrite fileExt_final_extension. split.
  - destruct (final_extension (name file)) as [e|] eqn:E; [|discriminate].
    intros I. destruct (final_extension_shape _ _ E) as (base & ext & N & -> & D).
    now exists base, ext.
  - intros (base & ext & -> & D & I).
    now rewrite (final_extension_split base ext D).
Qed.

Lemma accepted_extension_witness :
  (exists base ext : jsstring,
     name report_pdf = base ++ dot :: ext /\
     ~ In dot ext /\
     includes allowedTypes (toLowerCase (dot :: ext)) = true) /\
  includes allowedTypes (fileExt report_pdf) = true.
Proof.
  assert (H : exists base ext : jsstring,
            name report_pdf = base ++ dot :: ext /\
            ~ In dot ext /\
            includes allowedTypes (toLowerCase (dot :: ext)) = true).
  { exists (lit "Report"), [80; 68; 70]%N. split; [reflexivity|]. split.
    - intros [D|[D|[D|[]]]]; discriminate D.
    - vm_compute; reflexivity. }
  split; [exact H|].
  exact (proj2 (accepted_iff_last_extension_allowed report_pdf) H).
Defined.

(** ** Message ids *)

Section Ids.

Lemma digits_are_digits (u : Decimal.uint) :
  Forall (fun c : N => (48 <= c <= 57)%N) (digits u).
Proof. induction u; cbn [digits]; constructor; auto; lia. Qed.

Lemma digits_inj (u v : Decimal.uint) : digits u = digits v -> u = v.
Proof.
  revert v. induction u as [|u IH|u IH|u IH|u IH|u IH|u IH|u IH|u IH|u IH|u IH];
    intros [|v|v|v|v|v|v|v|v|v|v]; cbn [digits]; intros H;
    try discriminate H; try reflexivity;
    injection H as H; f_equal; now apply IH.
Qed.

Lemma numberToString_inj (n m : N) :
  numberToString n = numberToString m -> n = m.
Proof.
  unfold numberToString. intros H.
  now apply DecimalN.Unsigned.to_uint_inj, digits_inj.
Qed.

Lemma numberToString_no_underscore (n : N) (s t : jsstring) :
  numberToString n <> s ++ 95%N :: t.
Proof.
  intros E. pose proof (digits_are_digits (N.to_uint n)) as D.
  fold (numberToString n) in D. rewrite E in D.
  apply Forall_app in D as [_ D]. inversion D as [|? ? U _]; subst.
  cbn beta in U. lia.
Qed.

End Ids.

(** X12. The ids that key the rendered messages tell the kind of a message
    and the millisecond it was built in: a user message never shares its id
    with an assistant or an error message, nor an assistant message with an
    error message, and two messages of the same kind have the same id
    exactly when their clock readings are equal. *)
Theorem message_ids_tell_kind_and_time
  (st st' : State) (clk clk' : Clock) (data data' : ChatResponse) :
  Message.id (userMessage st clk) <> Message.id (assistantMessage data clk') /\
  Message.id (userMessage st clk) <> Message.id (errorMessage clk') /\
  Message.id (assistantMessage data clk) <> Message.id (errorMessage clk') /\
  (Message.id (userMessage st clk) = Message.id (userMessage st' clk')
   <-> now clk = now clk') /\
  (Message.id (assistantMessage data clk) = Message.id (assistantMessage data' clk')
   <-> now clk = now clk') /\
  (Message.id (errorMessage clk) = Message.id (errorMessage clk')
   <-> now clk = now clk').
Proof.
  unfold userMessage, assistantMessage, errorMessage. cbn [Message.id].
  repeat split; try (intros ->; reflexivity); intros E;
    apply app_inv_head in E.
  - exact (numberToString_no_underscore
             (now clk) (numberToString (now clk')) (lit "assistant") E).
  - exact (numberToString_no_underscore
             (now clk) (numberToString (now clk')) (lit "error") E).
  - apply (f_equal (@rev N)) in E. rewrite !rev_app_distr in E.
    discriminate E.
  - now apply numberToString_inj.
  - apply app_inv_tail in E. now apply numberToString_inj.
  - apply app_inv_tail in E. now apply numberToString_inj.
Qed.

Lemma message_ids_witness :
  now clk0 = now clk0 /\
  Message.id (userMessage (ui typed_hello) clk0)
    = Message.id (userMessage (ui (mount clk0)) clk0) /\
  Message.id (userMessage (ui typed_hello) clk0)
    <> Message.id (assistantMessage reply_plain clk0).
Proof.
  split; [reflexivity|].
  destruct (message_ids_tell_kind_and_time
              (ui typed_hello) (ui (mount clk0)) clk0 clk0 reply_plain reply_plain)
    as (UA & _ & _ & UU & _).
  split; [exact (proj2 UU eq_refl) | exact UA].
Defined.

(** ** The RAG toggle *)

(** X13. Toggling RAG twice gives back the very same state; a toggle leaves
    the requests already in flight as they were, and a send that follows a
    toggle posts the toggled flag. *)
Theorem rag_toggle_is_an_involution (w : World) :
  step (step w ToggleRag) ToggleRag = w /\
  inflight (step w ToggleRag) = inflight w /\
  (forall clk : Clock,
     truthy (trim (input (ui w))) = true ->
     loading (ui w) = false ->
     inflight (step (step w ToggleRag) (PressSend clk))
       = inflight w ++ [ChatPost {| req_message := input (ui w);
                                    session_id := sessionId (ui w);
                                    use_rag := negb (useRag (ui w)) |}]).
Proof.
  split; [|split].
  - destruct w as [[] ? ? ?]. rewrite !step_toggle.
    cbn. now rewrite negb_involutive.
  - reflexivity.
  - intros clk H1 H2.
    now rewrite (step_send_ok (step w ToggleRag) clk H1 H2).
Qed.

Lemma rag_toggle_witness :
  truthy (trim (input (ui typed_hello))) = true /\
  loading (ui typed_hello) = false /\
  inflight (step (step typed_hello ToggleRag) (PressSend clk0))
    = inflight typed_hello
        ++ [ChatPost {| req_message := input (ui typed_hello);
                        session_id := sessionId (ui typed_hello);
                        use_rag := negb (useRag (ui typed_hello)) |}].
Proof.
  assert (H1 : truthy (trim (input (ui typed_hello))) = true)
    by (vm_compute; reflexivity).
  assert (H2 : loading (ui typed_hello) = false) by (vm_compute; reflexivity).
  split; [exact H1|]. split; [exact H2|].
  exact (proj2 (proj2 (rag_toggle_is_an_involution typed_hello)) clk0 H1 H2).
Defined.

(** ** The finally blocks *)

(** X15. However a request settles, its flag is released.  After a chat
    request is fulfilled or rejected the loading flag is off and a non-blank
    text can be sent again; after an upload is fulfilled or rejected the
    uploading flag is off. *)
Theorem settlement_releases_the_flag (w : World) (n : nat) (clk : Clock) :
  (forall (body : ChatRequest) (out : Outcome),
     nth_error (inflight w) n = Some (ChatPost body) ->
     (forall data : UploadResponse, out <> Fulfilled (UploadData data)) ->
     let w' := step w (Settled n out clk) in
     loading (ui w') = false /\
     forall (text : jsstring) (clk' : Clock),
       truthy (trim text) = true ->
       exists u : Message.t,
         messages (ui (run w' [ChangeInput text; PressSend clk']))
           = messages (ui w') ++ [u] /\
         Message.role u = user /\
         Message.content u = text) /\
  (forall (file : File) (out : Outcome),
     nth_error (inflight w) n = Some (UploadPost file) ->
     (forall data : ChatResponse, out <> Fulfilled (ChatData data)) ->
     uploading (ui (step w (Settled n out clk))) = false).
Proof.
  split.
  - intros body out H K w'.
    assert (L : loading (ui w') = false).
    { unfold w'. destruct out as [[data|data]|err].
      - now rewrite (step_chat_fulfilled w n body data clk H).
      - now contradiction (K data).
      - now rewrite (step_chat_rejected w n body err clk H). }
    split; [exact L|]. intros text clk' T.
    unfold run. cbn [fold_left]. rewrite step_change_input.
    rewrite (step_send_ok (with_ui (with_input text (ui w')) w') clk' T L).
    exists (userMessage (with_input text (ui w')) clk'). repeat split.
  - intros file out H K. destruct out as [[data|data]|err].
    + now contradiction (K data).
    + now rewrite (step_upload_fulfilled w n file data clk H).
    + now rewrite (step_upload_rejected w n file err clk H).
Qed.

Lemma settlement_releases_witness :
  nth_error (inflight waiting_for_reply) 0
    = Some (ChatPost (chatRequest (ui typed_hello))) /\
  (forall data : UploadResponse,
     Rejected {| detail := None |} <> Fulfilled (UploadData data)) /\
  truthy (trim (lit "hello again")) = true /\
  loading (ui (step waiting_for_reply
                    (Settled 0 (Rejected {| detail := None |}) clk1)))
    = false /\
  (exists u : Message.t,
     messages
       (ui (run (step waiting_for_reply
                      (Settled 0 (Rejected {| detail := None |}) clk1))
                [ChangeInput (lit "hello again"); PressSend clk1]))
       = messages (ui (step waiting_for_reply
                            (Settled 0 (Rejected {| detail := None |}) clk1)))
           ++ [u] /\
     Message.role u = user /\
     Message.content u = lit "hello again") /\
  nth_error (inflight waiting_for_upload) 0 = Some (UploadPost report_pdf) /\
  (forall data : ChatResponse,
     Rejected {| detail := None |} <> Fulfilled (ChatData data)) /\
  uploading (ui (step waiting_for_upload
                      (Settled 0 (Rejected {| detail := None |}) clk1)))
    = false.
Proof.
  assert (H : nth_error (inflight waiting_for_reply) 0
              = Some (ChatPost (chatRequest (ui typed_hello))))
    by (vm_compute; reflexivity).
  assert (K : forall data : UploadResponse,
            Rejected {| detail := None |} <> Fulfilled (UploadData data))
    by discriminate.
  assert (T : truthy (trim (lit "hello again")) = true)
    by (vm_compute; reflexivity).
  assert (H' : nth_error (inflight waiting_for_upload) 0
               = Some (UploadPost report_pdf))
    by (vm_compute; reflexivity).
  assert (K' : forall data : ChatResponse,
             Rejected {| detail := None |} <> Fulfilled (ChatData data))
    by discriminate.
  split; [exact H|]. split; [exact K|]. split; [exact T|].
  destruct (proj1 (settlement_releases_the_flag waiting_for_reply 0 clk1)
              _ (Rejected {| detail := None |}) H K) as (L & S).
  split; [exact L|]. split; [exact (S (lit "hello again") clk1 T)|].
  split; [exact H'|]. split; [exact K'|].
  exact (proj2 (settlement_releases_the_flag waiting_for_upload 0 clk1)
               report_pdf (Rejected {| detail := None |}) H' K').
Defined.
